(** * Capacitated facility location: the model of [src/model] and its properties

    The development follows the two Python modules of the repository:

    - [Util] is [src/model/util.py]: the class [Loc] and its great-circle
      distance;
    - [FacilityLocationModel] is [src/model/facility_location_model.py]: the
      classes [Instance], [Solution] and [Model].

    Python values are modelled as the program has them.  A Python [float] is
    an IEEE binary64 number, here a primitive float of [PrimFloat]: its
    arithmetic and its comparisons are the ones the interpreter performs,
    NaN included.  Integer columns drawn by [numpy.random.randint] are
    [int64] values, here [Z] with the wrap-around of their sums written out.
    An exception is a value of [exn]; a call that may raise, allocate an
    object, draw random numbers or call a library runs in the monad [M] over
    the state [World] of the interpreter.  An object the code changes in
    place is handed back in its new state: the problem object by [solve],
    the instance, with the columns written into its frames, by
    [get_solution]. *)

From Stdlib Require Import ZArith List String Ascii Bool Lia PeanoNat.
From Stdlib Require Import Floats DecimalString.
From Stdlib Require Uint63.
Import ListNotations.

Set Implicit Arguments.

(** ** Python run-time: exceptions, the world, and the monad *)

Module Py.

(** The exception classes the modelled code can raise. *)
Inductive exn : Type :=
| ValueError (msg : string)
| KeyError (key : string)
| TypeError (msg : string)
| Exception (msg : string).

Inductive result (A : Type) : Type :=
| Ok (a : A)
| Raise (e : exn).
Arguments Ok {A} a.
Arguments Raise {A} e.

(** The functions of the C math library that [math.sin], [math.cos] and
    [math.acos] wrap. *)
Inductive libm_fn : Type := Fsin | Fcos | Facos.

(** What the program asks of its collaborators, in the order it asks. *)
Inductive event : Type :=
| LibmCall (f : libm_fn) (x : float)
    (* one evaluation of a math-library function *)
| SolverCall (time_limit : option Z).
    (* one invocation of the MILP backend, with the time limit handed to it
       ([None]: no solver object and no time limit were passed) *)

(** The part of the interpreter's state the code reads or writes: the log
    of collaborator calls (oldest first), the next fresh object identity,
    and the position in the stream of raw random numbers. *)
Record World : Type := {
  trace : list event;
  next_oid : nat;
  rng : nat
}.

Definition M (A : Type) : Type := World -> result A * World.

Definition ret {A} (a : A) : M A := fun w => (Ok a, w).

Definition raise {A} (e : exn) : M A := fun w => (Raise e, w).

Definition bind {A B} (m : M A) (k : A -> M B) : M B :=
  fun w =>
    match m w with
    | (Ok a, w') => k a w'
    | (Raise e, w') => (Raise e, w')
    end.

Definition emit (e : event) : M unit :=
  fun w => (Ok tt, {| trace := trace w ++ [e]; next_oid := next_oid w; rng := rng w |}).

Definition fresh_oid : M nat :=
  fun w => (Ok (next_oid w),
            {| trace := trace w; next_oid := S (next_oid w); rng := rng w |}).

(** Advance the random stream by [n] draws; the old position is returned. *)
Definition take_rng (n : nat) : M nat :=
  fun w => (Ok (rng w),
            {| trace := trace w; next_oid := next_oid w; rng := rng w + n |}).

(** A comprehension or loop whose body may raise: left to right, stopping
    at the first exception. *)
Fixpoint mapM {A B} (f : A -> M B) (l : list A) : M (list B) :=
  match l with
  | [] => ret []
  | a :: l' => bind (f a) (fun b => bind (mapM f l') (fun bs => ret (b :: bs)))
  end.

(** [str(n)] for an integer. *)
Definition str_int (z : Z) : string := NilZero.string_of_int (Z.to_int z).

Definition str_nat (n : nat) : string := str_int (Z.of_nat n).

(** [int64] wrap-around: the value numpy keeps of an integer result. *)
Definition wrap64 (z : Z) : Z :=
  ((z + 2 ^ 63) mod 2 ^ 64 - 2 ^ 63)%Z.

(** [Series.sum()] of an [int64] column. *)
Definition int64_sum (l : list Z) : Z :=
  fold_left (fun acc z => wrap64 (acc + z)) l 0%Z.

(** [float(n)] for an [int64] value (round to nearest, ties to even).  The
    magnitude of every [int64] but the least one fits the 63-bit integers the
    conversion goes through; the least one, -2^63, is a power of two. *)
Definition float_of_int (z : Z) : float :=
  match z with
  | Z0 => 0%float
  | Zpos _ => of_uint63 (Uint63.of_Z z)
  | Zneg _ =>
      if (z =? - 2 ^ 63)%Z then (- 0x1p+63)%float
      else (- of_uint63 (Uint63.of_Z (- z)))%float
  end.

(** The builtin [sum] over a list of floats: it starts from the integer 0
    and adds from the left. *)
Definition py_sum (l : list float) : float :=
  fold_left PrimFloat.add l 0%float.

(** [range(n)]. *)
Definition range (n : nat) : list nat := seq 0 n.

(** Lookup by label in a column or frame whose index is [0 .. len-1], as
    [get_random_us_locs] leaves it; a missing label raises [KeyError]. *)
Definition loc_ {A} (frame : list A) (i : nat) : M A :=
  match nth_error frame i with
  | Some a => ret a
  | None => raise (KeyError (str_nat i))
  end.

End Py.

Import Py.

Declare Scope py_scope.
Delimit Scope py_scope with py.
Notation "x <- m ;; k" := (bind m (fun x => k))
  (at level 61, m at next level, right associativity) : py_scope.
Notation "m ;;; k" := (bind m (fun _ => k))
  (at level 61, right associativity) : py_scope.
Open Scope py_scope.

(** ** src/model/util.py *)

Module Util.

Open Scope float_scope.

(** [math.pi] and the literals of [haversine_distance], written with the
    binary64 value the interpreter reads them as. *)
Definition pi : float := 0x1.921fb54442d18p+1.     (* 3.141592653589793 *)
Definition c1_01 : float := 0x1.028f5c28f5c29p+0.  (* 1.01 *)

(** An object of class [Loc].  The class defines no [__eq__], so [==] on
    two locations is the default one of [object]: identity. [oid] is the
    identity the interpreter gave the object when it was created. *)
Record Loc : Type := {
  oid : nat;
  lat : float;
  lon : float
}.

(** [Loc(lat, lon)]: a new object. *)
Definition Loc_init (lat lon : float) : M Loc :=
  o <- fresh_oid ;;
  ret {| oid := o; lat := lat; lon := lon |}.

(** [self == other] for two [Loc] objects. *)
Definition Loc_eq (self other : Loc) : bool := Nat.eqb (oid self) (oid other).

(** [str(loc)], the default [object.__repr__], names the object by its
    identity. *)
Definition Loc_str (l : Loc) : string :=
  "<src.model.util.Loc object at " ++ str_nat (oid l) ++ ">".

Definition distance_error (self other : Loc) : exn :=
  Exception ("Error in distance for " ++ Loc_str self ++ " and " ++ Loc_str other).

Section Libm.

(** The platform's C math library. *)
Variables sin cos acos : float -> float.

(** CPython's wrapper around a one-argument libm function: the call is
    made, and a NaN result for a non-NaN argument, or an infinite result
    for a finite argument, becomes [ValueError]. *)
Definition math_1 (name : libm_fn) (f : float -> float) (x : float) : M float :=
  emit (LibmCall name x) ;;;
  let r := f x in
  if is_nan r && negb (is_nan x) then raise (ValueError "math domain error")
  else if is_infinity r && is_finite x then raise (ValueError "math domain error")
  else ret r.

Definition math_sin : float -> M float := math_1 Fsin sin.
Definition math_cos : float -> M float := math_1 Fcos cos.
Definition math_acos : float -> M float := math_1 Facos acos.

(** Lines 30-32: the cosine-law value [v]. *)
Definition cosine_law (self other : Loc) : M float :=
  s1 <- math_sin (lat self * pi / 180) ;;
  s2 <- math_sin (lat other * pi / 180) ;;
  c1 <- math_cos (lat self * pi / 180) ;;
  c2 <- math_cos (lat other * pi / 180) ;;
  c3 <- math_cos (lon other * pi / 180 - lon self * pi / 180) ;;
  ret (s1 * s2 + c1 * c2 * c3).

(** Lines 35-38: "take care of floating point imprecision". *)
Definition clamp (v : float) : float :=
  if (1.0 <? v) && (v <? c1_01) then 1.0
  else if (- c1_01 <? v) && (v <? -1.0) then -1.0
  else v.

(** Line 40: the domain test on the clamped value. *)
Definition out_of_domain (v : float) : bool := (v <? -1) || (1 <? v).

(** Lines 35-43: what the function does with [v]. *)
Definition distance_of_cosine (self other : Loc) (v : float) : M float :=
  let v := clamp v in
  if out_of_domain v then raise (distance_error self other)
  else
    r <- math_acos v ;;
    ret (6378 * r).

Definition haversine_distance (self other : Loc) : M float :=
  if Loc_eq self other then ret 0.0
  else
    v <- cosine_law self other ;;
    distance_of_cosine self other v.

End Libm.

(** A row of [USA_zips.csv]: the columns the program reads. *)
Record ZipRow : Type := {
  zip_lat : float;
  zip_lon : float;
  zip_pop : Z
}.

Section Zips.

(** The data set read at import time, and pandas' choice of [n] of its
    rows without replacement, made from the random stream at a given
    position. *)
Variable usa_zips : list ZipRow.
Variable sample : nat -> nat -> list ZipRow -> list ZipRow.

(** [usa_zips.sample(n)] refuses a sample larger than the population;
    the index is then reset to [0 .. n-1], which the list positions are. *)
Definition get_random_us_locs (n : nat) : M (list ZipRow) :=
  if (List.length usa_zips <? n)%nat then
    raise (ValueError
      "Cannot take a larger sample than population when 'replace=False'")
  else
    p <- take_rng n ;;
    ret (sample p n usa_zips).

End Zips.

End Util.

Import Util.

(** ** src/model/facility_location_model.py *)

Module FacilityLocationModel.

(** [eps = 0.0001], "floating point tolerance". *)
Definition eps : float := 0x1.a36e2eb1c432dp-14.

(** *** numpy.random.randint *)

Section Randint.

(** The raw output of numpy's global generator, by position. *)
Variable entropy : nat -> Z.

(** [np.random.randint(low, high, size)] with the default [int64] type:
    an empty result is returned before the bounds are looked at;
    otherwise the bounds must fit the type and satisfy [low < high], and
    each value is drawn from the half-open range. *)
Definition randint (low high : Z) (size : nat) : M (list Z) :=
  if (size =? 0)%nat then ret []
  else if (low <? - 2 ^ 63)%Z then
    raise (ValueError "low is out of bounds for int64")
  else if (2 ^ 63 - 1 <? high - 1)%Z then
    raise (ValueError "high is out of bounds for int64")
  else if (high - 1 <? low)%Z then raise (ValueError "low >= high")
  else
    p <- take_rng size ;;
    ret (map (fun k => (low + entropy (p + k) mod (high - low))%Z) (range size)).

End Randint.

(** [frame[col] = values] for an array of values: the lengths must agree. *)
Definition set_column {A B C} (f : A -> B -> C) (frame : list A) (values : list B)
  : M (list C) :=
  if (List.length values =? List.length frame)%nat then
    ret (map (fun p => f (fst p) (snd p)) (combine frame values))
  else raise (ValueError "Length of values does not match length of index").

(** *** class Instance *)

(** A row of the [customers] frame and a row of the [sites] frame.  The
    cell of the column [volume] is [None] as long as the frame has no such
    column: [Model.get_solution] adds it. *)
Record Customer : Type := {
  c_lat : float;
  c_lon : float;
  c_loc : Loc;
  demand : Z;
  c_volume : option float
}.

Record Site : Type := {
  s_lat : float;
  s_lon : float;
  fixed_cost : Z;
  capacity : Z;
  s_loc : Loc;
  s_volume : option float
}.

Record Instance : Type := {
  n_customers : nat;
  customers : list Customer;
  n_sites : nat;
  sites : list Site;
  shipping_cost : float
}.

(** [Instance.__init__]: the two assertions on the type of the counts hold
    by typing. *)
Definition Instance_init (n_customers : nat) (customers : list Customer)
    (n_sites : nat) (sites : list Site) (shipping_cost : float) : Instance :=
  {| n_customers := n_customers; customers := customers;
     n_sites := n_sites; sites := sites; shipping_cost := shipping_cost |}.

Section Generate.

Variable usa_zips : list ZipRow.
Variable sample : nat -> nat -> list ZipRow -> list ZipRow.
Variable entropy : nat -> Z.

(** [frame[['lat', 'lon']].apply(lambda r: Loc(r[0], r[1]), axis=1)]: one
    call of the lambda per row.  On a frame without rows pandas (before 3.0)
    still calls the lambda once, on a row of NaNs, to find out what it
    returns: one location object is created and dropped. *)
Definition make_locs (frame : list ZipRow) : M (list Loc) :=
  match frame with
  | [] => Loc_init nan nan ;;; ret []
  | _ :: _ => mapM (fun r => Loc_init (zip_lat r) (zip_lon r)) frame
  end.

Definition generate (n_customers : nat) (demand_range : Z * Z)
    (n_sites : nat) (capacity_range fixed_cost_range : Z * Z)
    (shipping_cost : float) : M Instance :=
  (* Generate customers *)
  customers <- get_random_us_locs usa_zips sample n_customers ;;
  locs <- make_locs customers ;;
  demands <- randint entropy (fst demand_range) (snd demand_range) n_customers ;;
  customers <- set_column
                 (fun rl d => {| c_lat := zip_lat (fst rl); c_lon := zip_lon (fst rl);
                                 c_loc := snd rl; demand := d;
                                 c_volume := None |})
                 (combine customers locs) demands ;;
  (* Generate sites *)
  sites <- get_random_us_locs usa_zips sample n_sites ;;
  fixed_costs <-
    (if (fst fixed_cost_range =? snd fixed_cost_range)%Z then
       ret (map (fun _ => fst fixed_cost_range) sites)
     else
       values <- randint entropy (fst fixed_cost_range) (snd fixed_cost_range) n_sites ;;
       set_column (fun _ v => v) sites values) ;;
  capacities <- randint entropy (fst capacity_range) (snd capacity_range) n_sites ;;
  sites <- set_column (fun rf c => (rf, c)) (combine sites fixed_costs) capacities ;;
  locs <- make_locs (map (fun rfc => fst (fst rfc)) sites) ;;
  ret (Instance_init n_customers customers n_sites
         (map (fun p => {| s_lat := zip_lat (fst (fst (fst p)));
                           s_lon := zip_lon (fst (fst (fst p)));
                           fixed_cost := snd (fst (fst p));
                           capacity := snd (fst p);
                           s_loc := snd p;
                           s_volume := None |})
              (combine sites locs))
         shipping_cost).

End Generate.

(** *** The PuLP objects the model is made of *)

(** A decision variable: [y[i]] (binary, "site i is open") or [x[i][j]]
    (continuous, non-negative, "flow from site i to customer j"). *)
Inductive LpVariable : Type :=
| y_ (i : nat)
| x_ (i j : nat).

(** A coefficient: a Python number is an integer or a float. *)
Inductive num : Type :=
| Int (z : Z)
| Float (f : float).

Definition to_float (c : num) : float :=
  match c with
  | Int z => float_of_int z
  | Float f => f
  end.

(** [lpSum] of coefficient-variable products. *)
Definition LpAffineExpression : Type := list (num * LpVariable).

(** [c == 0] for a coefficient ([0], [0.0] and [-0.0] are; NaN is not). *)
Definition is_zero_num (c : num) : bool :=
  match c with
  | Int z => (z =? 0)%Z
  | Float f => (f =? 0)%float
  end.

(** [lpSum] of the products [c * v] the code writes: PuLP makes the empty
    expression of a product whose coefficient is zero, so such a product
    leaves no term. *)
Definition lpSum (products : list (num * LpVariable)) : LpAffineExpression :=
  filter (fun t => negb (is_zero_num (fst t))) products.

Inductive LpSense : Type := LpConstraintLE | LpConstraintGE.

(** The right-hand side of a constraint as the code writes it: a number,
    or a number times a variable. *)
Inductive LpBound : Type :=
| Constant (c : Z)
| Times (c : Z) (v : LpVariable).

(** [lpSum(vars) <= bound, name] or [lpSum(vars) >= bound, name]. *)
Record LpConstraint : Type := {
  name : string;
  lhs : list LpVariable;
  sense : LpSense;
  rhs : LpBound
}.

Definition LpStatusNotSolved : Z := 0.
Definition LpStatusOptimal : Z := 1.
Definition LpStatusInfeasible : Z := -1.
Definition LpStatusUnbounded : Z := -2.
Definition LpStatusUndefined : Z := -3.

(** *** class Model(pulp.LpProblem) *)

Record Model : Type := {
  data : Instance;
  site_fixed_costs : list Z;
  site_capacities : list Z;
  total_demand : Z;
  total_capacity : Z;
  shipping_costs : list ((nat * nat) * float);
  objective : LpAffineExpression;
  constraints : list LpConstraint;
  (* the state of the problem object: its status, and [varValue] of each
     variable ([None] until a solver has assigned it) *)
  status : Z;
  y_varValue : nat -> option float;
  x_varValue : nat -> nat -> option float
}.

(** [[(i, j) for i in s_ids for j in c_ids]]. *)
Definition pairs (s_ids c_ids : list nat) : list (nat * nat) :=
  flat_map (fun i => map (fun j => (i, j)) c_ids) s_ids.

(** [d[i, j]] on a dictionary keyed by pairs. *)
Fixpoint dict_get {V} (d : list ((nat * nat) * V)) (k : nat * nat) : M V :=
  match d with
  | [] => raise (KeyError ("(" ++ str_nat (fst k) ++ ", " ++ str_nat (snd k) ++ ")"))
  | (k', v) :: d' =>
      if (fst k' =? fst k)%nat && (snd k' =? snd k)%nat then ret v
      else dict_get d' k
  end.

Section WithLibm.

Variables sin cos acos : float -> float.

(** [Model.__init__]. *)
Definition Model_init (instance : Instance) : M Model :=
  let s_ids := range (n_sites instance) in
  let c_ids := range (n_customers instance) in
  let site_fixed_costs := map fixed_cost (sites instance) in
  let site_capacities := map capacity (sites instance) in
  let total_demand := int64_sum (map demand (customers instance)) in
  let total_capacity := int64_sum (map capacity (sites instance)) in
  (* Objective function *)
  shipping_costs <-
    mapM (fun ij =>
            s <- loc_ (sites instance) (fst ij) ;;
            c <- loc_ (customers instance) (snd ij) ;;
            d <- haversine_distance sin cos acos (s_loc s) (c_loc c) ;;
            ret (ij, (shipping_cost instance * d)%float))
         (pairs s_ids c_ids) ;;
  fixed_terms <-
    mapM (fun i => f <- loc_ site_fixed_costs i ;; ret (Int f, y_ i)) s_ids ;;
  shipping_terms <-
    mapM (fun ij => c <- dict_get shipping_costs ij ;;
                    ret (Float c, x_ (fst ij) (snd ij)))
         (pairs s_ids c_ids) ;;
  (* Demand constraints *)
  demand_constraints <-
    mapM (fun j =>
            c <- loc_ (customers instance) j ;;
            ret {| name := "demand_" ++ str_nat j;
                   lhs := map (fun i => x_ i j) s_ids;
                   sense := LpConstraintGE;
                   rhs := Constant (demand c) |})
         c_ids ;;
  (* Site capacity constraints *)
  capacity_constraints <-
    mapM (fun i =>
            cap <- loc_ site_capacities i ;;
            ret {| name := "capacity_" ++ str_nat i;
                   lhs := map (fun j => x_ i j) c_ids;
                   sense := LpConstraintLE;
                   rhs := Times (Z.min cap total_demand) (y_ i) |})
         s_ids ;;
  ret {| data := instance;
         site_fixed_costs := site_fixed_costs;
         site_capacities := site_capacities;
         total_demand := total_demand;
         total_capacity := total_capacity;
         shipping_costs := shipping_costs;
         objective := lpSum fixed_terms ++ lpSum shipping_terms;
         constraints := demand_constraints ++ capacity_constraints;
         status := LpStatusNotSolved;
         y_varValue := fun _ => None;
         x_varValue := fun _ _ => None |}.

End WithLibm.

(** What a run of the solver leaves in the problem object. *)
Record SolverReply : Type := {
  reply_status : Z;
  reply_y : nat -> option float;
  reply_x : nat -> nat -> option float
}.

Section WithSolver.

(** The MILP backend behind [pulp.LpProblem.solve]: given the problem and
    the time limit the caller hands over, if any, it answers with a
    status and variable values. *)
Variable backend : Model -> option Z -> SolverReply.

(** [pulp.LpProblem.solve(self, solver)] with a solver configured with
    [time_limit]; [None] is the call without arguments. *)
Definition LpProblem_solve (self : Model) (time_limit : option Z) : M Model :=
  emit (SolverCall time_limit) ;;;
  let r := backend self time_limit in
  ret {| data := data self;
         site_fixed_costs := site_fixed_costs self;
         site_capacities := site_capacities self;
         total_demand := total_demand self;
         total_capacity := total_capacity self;
         shipping_costs := shipping_costs self;
         objective := objective self;
         constraints := constraints self;
         status := reply_status r;
         y_varValue := reply_y r;
         x_varValue := reply_x r |}.

(** [Model.solve(self, timeout_sec=120)]: the status and message it
    returns, and the problem object as the call leaves it. *)
Definition solve (self : Model) (timeout_sec : Z) : M ((Z * string) * Model) :=
  if (total_capacity self <? total_demand self)%Z then
    ret ((LpStatusInfeasible,
          ("Total demand (" ++ str_int (total_demand self)
             ++ ") exceeds total capacity (" ++ str_int (total_capacity self)
             ++ ")")%string),
         self)
  else
    self <- LpProblem_solve self None ;;
    let status := status self in
    if (status =? LpStatusInfeasible)%Z then
      ret ((status, "Model is infeasible"%string), self)
    else if (status =? LpStatusNotSolved)%Z then
      ret ((status, "Model not solved to optimality"%string), self)
    else
      ret ((status, "Model optimal"%string), self).

(** The default of the parameter. *)
Definition default_timeout_sec : Z := 120.

End WithSolver.

(** *** class Solution and Model.get_solution *)

(** A row of the [flows] frame. *)
Record Flow : Type := {
  from : nat;
  to : nat;
  units : float;
  from_loc : Loc;
  from_lat : float;
  from_lon : float;
  to_loc : Loc;
  to_lat : float;
  to_lon : float
}.

(** The dataclass, in the order of its fields; [secs], a wall-clock
    reading, is left out.  [get_solution] passes [xval] for [xs] and [yval]
    for [ys].  [instance] is the object [self.data], whose two frames
    [get_solution] has extended in place. *)
Record Solution : Type := {
  instance : Instance;
  sol_status : Z;
  value : option float;
  xs : list ((nat * nat) * float);
  ys : list (nat * float);
  flows : list Flow;
  fixed_costs : float;
  variable_costs : float
}.

(** [frame['volume'] = frame.index.map(lambda x: sum([v for (i, j), v in
    xval.items() if key(i, j) == x]))]: the frame with the new column, one
    cell per index label [0 .. len-1]. *)
Definition volume_column (len : nat) (end_of : nat * nat -> nat)
    (xval : list ((nat * nat) * float)) : list float :=
  map (fun x => py_sum (map snd (filter (fun e => (end_of (fst e) =? x)%nat) xval)))
      (range len).

Definition set_sites_volume (frame : list Site) (xval : list ((nat * nat) * float))
  : list Site :=
  map (fun sv => {| s_lat := s_lat (fst sv); s_lon := s_lon (fst sv);
                    fixed_cost := fixed_cost (fst sv); capacity := capacity (fst sv);
                    s_loc := s_loc (fst sv); s_volume := Some (snd sv) |})
      (combine frame (volume_column (List.length frame) fst xval)).

Definition set_customers_volume (frame : list Customer)
    (xval : list ((nat * nat) * float)) : list Customer :=
  map (fun cv => {| c_lat := c_lat (fst cv); c_lon := c_lon (fst cv);
                    c_loc := c_loc (fst cv); demand := demand (fst cv);
                    c_volume := Some (snd cv) |})
      (combine frame (volume_column (List.length frame) snd xval)).

(** The instance after lines 154-157: both frames with their [volume]
    column, everything else as it was. *)
Definition with_volumes (instance : Instance) (xval : list ((nat * nat) * float))
  : Instance :=
  {| n_customers := n_customers instance;
     customers := set_customers_volume (customers instance) xval;
     n_sites := n_sites instance;
     sites := set_sites_volume (sites instance) xval;
     shipping_cost := shipping_cost instance |}.

(** [{k: varValue(k) for k in keys if varValue(k) > eps}]: comparing [None]
    with a float raises [TypeError]. *)
Fixpoint above_eps {K} (varValue : K -> option float) (keys : list K)
  : M (list (K * float)) :=
  match keys with
  | [] => ret []
  | k :: keys' =>
      match varValue k with
      | None =>
          raise (TypeError
            "'>' not supported between instances of 'NoneType' and 'float'")
      | Some v =>
          rest <- above_eps varValue keys' ;;
          ret (if (eps <? v)%float then (k, v) :: rest else rest)
      end
  end.

(** [pulp.value(self.objective)]: the constant 0 plus [varValue * coefficient]
    for each term in order, or [None] when a variable has no value. *)
Definition varValue (self : Model) (v : LpVariable) : option float :=
  match v with
  | y_ i => y_varValue self i
  | x_ i j => x_varValue self i j
  end.

Fixpoint lp_value (self : Model) (e : LpAffineExpression) (s : float) : option float :=
  match e with
  | [] => Some s
  | (c, v) :: e' =>
      match varValue self v with
      | None => None
      | Some val => lp_value self e' (s + val * to_float c)%float
      end
  end.

(** [get_solution] writes into the frames of [self.data] in place.  The
    instance object is shared: after the call [self.data], the [instance] of
    the solution and the caller's own reference all denote the extended
    instance, which the model returns as [instance] of the solution
    ([Model_after_get_solution] gives the model object itself).  The rest of
    the function reads the extended frames. *)
Definition get_solution (self : Model) : M Solution :=
  (* Get variable values & create dictionaries *)
  yval <- above_eps (y_varValue self) (range (n_sites (data self))) ;;
  xval <- above_eps (fun ij => x_varValue self (fst ij) (snd ij))
            (pairs (range (n_sites (data self))) (range (n_customers (data self)))) ;;
  (* Extend existing DataFrames *)
  let data := with_volumes (data self) xval in
  (* Create flows DataFrame *)
  flows <-
    mapM (fun e =>
            s <- loc_ (sites data) (fst (fst e)) ;;
            c <- loc_ (customers data) (snd (fst e)) ;;
            ret {| from := fst (fst e); to := snd (fst e); units := snd e;
                   from_loc := s_loc s; from_lat := lat (s_loc s);
                   from_lon := lon (s_loc s);
                   to_loc := c_loc c; to_lat := lat (c_loc c);
                   to_lon := lon (c_loc c) |})
         xval ;;
  fixed_terms <-
    mapM (fun e => f <- loc_ (site_fixed_costs self) (fst e) ;;
                   ret (float_of_int f * snd e)%float)
         yval ;;
  shipping_terms <-
    mapM (fun e => c <- dict_get (shipping_costs self) (fst e) ;;
                   ret (c * snd e)%float)
         xval ;;
  ret {| instance := data;
         sol_status := status self;
         value := lp_value self (objective self) 0%float;
         xs := xval;
         ys := yval;
         flows := flows;
         fixed_costs := py_sum fixed_terms;
         variable_costs := py_sum shipping_terms |}.

(** The model object after a call of [get_solution] that returned
    [solution]: its instance is the extended one. *)
Definition Model_after_get_solution (self : Model) (solution : Solution) : Model :=
  {| data := instance solution;
     site_fixed_costs := site_fixed_costs self;
     site_capacities := site_capacities self;
     total_demand := total_demand self;
     total_capacity := total_capacity self;
     shipping_costs := shipping_costs self;
     objective := objective self;
     constraints := constraints self;
     status := status self;
     y_varValue := y_varValue self;
     x_varValue := x_varValue self |}.

End FacilityLocationModel.

Import FacilityLocationModel.

Close Scope float_scope.

(** ** Concrete data used to run the model *)

Module Examples.

Open Scope float_scope.

(** The world at the start of a run, after the four location objects
    below were created. *)
Definition w0 : World := {| trace := []; next_oid := 4; rng := 0 |}.

(** A math library tabulated at the only arguments the runs below reach:
    [sin 0 = 0], [cos 0 = 1] and [acos 1 = 0], which every libm returns
    exactly. *)
Definition sin0 (x : float) : float := 0.0.
Definition cos0 (x : float) : float := 1.0.
Definition acos0 (x : float) : float := 0.0.

(** Two location objects at the same coordinates. *)
Definition P : Loc := {| oid := 0; lat := 0.0; lon := 0.0 |}.
Definition P' : Loc := {| oid := 1; lat := 0.0; lon := 0.0 |}.

(** Two location objects at the coordinates (25.61, -93.14), as a site and
    a customer drawn at the same zip code are. *)
Definition Q : Loc :=
  {| oid := 2; lat := 0x1.99c28f5c28f5cp+4; lon := -0x1.748f5c28f5c29p+6 |}.
Definition Q' : Loc :=
  {| oid := 3; lat := 0x1.99c28f5c28f5cp+4; lon := -0x1.748f5c28f5c29p+6 |}.

(** The math library of the reference platform (glibc on x86-64), tabulated
    at the arguments the distance between [Q] and [Q'] reaches:
    sin 0.4469788214357478 = 0.4322431416890144,
    cos 0.4469788214357478 = 0.9017570994801264, cos 0 = 1 and
    acos 0.9999999999999999 = 1.4901161193847656e-08. *)
Definition sin1 (x : float) : float :=
  if x =? 0x1.c9b4d0f048de5p-2 then 0x1.ba9df235e6007p-2 else 0.0.
Definition cos1 (x : float) : float :=
  if x =? 0x1.c9b4d0f048de5p-2 then 0x1.cdb31b4667ea9p-1 else 1.0.
Definition acos1 (x : float) : float :=
  if x =? 0x1.fffffffffffffp-1 then 0x1p-26 else 0.0.

(** A data set of three zip codes, a sampler that takes the first rows,
    and a generator whose raw output counts up. *)
Definition zips : list ZipRow :=
  [ {| zip_lat := 0x1.99c28f5c28f5cp+4; zip_lon := -0x1.748f5c28f5c29p+6;
       zip_pop := 1200 |};
    {| zip_lat := 40.5; zip_lon := -74.25; zip_pop := 30000 |};
    {| zip_lat := 34.0; zip_lon := -118.25; zip_pop := 52000 |} ].
Definition first_rows (p n : nat) (rows : list ZipRow) : list ZipRow := firstn n rows.
Definition counter (k : nat) : Z := Z.of_nat k.

(** Scenario A of the specification: one customer (demand 10) and one site
    (capacity 100, fixed cost 1000) at the same point, shipping cost 1. *)
Definition scenario_A : Instance :=
  Instance_init 1 [{| c_lat := 0.0; c_lon := 0.0; c_loc := P; demand := 10;
                      c_volume := None |}]
                1 [{| s_lat := 0.0; s_lon := 0.0; fixed_cost := 1000;
                      capacity := 100; s_loc := P'; s_volume := None |}]
                1.0.

(** Scenario B: one customer (demand 10) and one site (capacity 5). *)
Definition scenario_B : Instance :=
  Instance_init 1 [{| c_lat := 0.0; c_lon := 0.0; c_loc := P; demand := 10;
                      c_volume := None |}]
                1 [{| s_lat := 0.0; s_lon := 0.0; fixed_cost := 1000;
                      capacity := 5; s_loc := P'; s_volume := None |}]
                1.0.

(** Two customers with a demand of 2^62 each and one site of capacity 1:
    the demands add up to 2^63, one more than an [int64] holds. *)
Definition scenario_overflow : Instance :=
  Instance_init 2 [{| c_lat := 0.0; c_lon := 0.0; c_loc := P;
                      demand := 4611686018427387904; c_volume := None |};
                   {| c_lat := 0x1.99c28f5c28f5cp+4; c_lon := -0x1.748f5c28f5c29p+6;
                      c_loc := Q; demand := 4611686018427387904;
                      c_volume := None |}]
                1 [{| s_lat := 0.0; s_lon := 0.0; fixed_cost := 1000;
                      capacity := 1; s_loc := P'; s_volume := None |}]
                1.0.

(** A backend that opens every site fully and ships 10 units on every
    arc, whatever the problem. *)
Definition backend_A (self : Model) (time_limit : option Z) : SolverReply :=
  {| reply_status := LpStatusOptimal;
     reply_y := fun _ => Some 1.0;
     reply_x := fun _ _ => Some 10.0 |}.


(** A backend that stops with [LpStatusNotSolved] when it is given a time
    limit, and otherwise runs to optimality however long that takes. *)
Definition backend_slow (self : Model) (time_limit : option Z) : SolverReply :=
  match time_limit with
  | Some _ => {| reply_status := LpStatusNotSolved;
                 reply_y := fun _ => None; reply_x := fun _ _ => None |}
  | None => backend_A self time_limit
  end.

(** The model [Model(scenario_A)] (see [model_A_built] below). *)
Definition model_A : Model :=
  {| data := scenario_A;
     site_fixed_costs := [1000%Z];
     site_capacities := [100%Z];
     total_demand := 10;
     total_capacity := 100;
     shipping_costs := [((0, 0)%nat, 0.0)];
     objective := [(Int 1000, y_ 0)];
     constraints :=
       [{| name := "demand_0"; lhs := [x_ 0 0]; sense := LpConstraintGE;
           rhs := Constant 10 |};
        {| name := "capacity_0"; lhs := [x_ 0 0]; sense := LpConstraintLE;
           rhs := Times 10 (y_ 0) |}];
     status := LpStatusNotSolved;
     y_varValue := fun _ => None;
     x_varValue := fun _ _ => None |}.

(** The problem object after [pulp.LpProblem.solve()] with a given backend. *)
Definition after_solve (backend : Model -> option Z -> SolverReply)
    (self : Model) : Model :=
  match fst (LpProblem_solve backend self None w0) with
  | Ok m => m
  | Raise _ => self
  end.

(** The pipeline of [main_streamlit.py] after generation: build the model,
    solve it, and extract the solution when the status is optimal. *)
Definition optimize (backend : Model -> option Z -> SolverReply)
    (instance : Instance) : M ((Z * string) * option Solution) :=
  model <- Model_init sin0 cos0 acos0 instance ;;
  r <- solve backend model default_timeout_sec ;;
  if (fst (fst r) =? LpStatusOptimal)%Z then
    solution <- get_solution (snd r) ;;
    ret (fst r, Some solution)
  else ret (fst r, None).

End Examples.

Close Scope float_scope.
Open Scope string_scope.
Unset Implicit Arguments.

(** ** Properties *)

(** *** The monad *)

Lemma bind_Ok {A B} (m : M A) (k : A -> M B) w b w' :
  bind m k w = (Ok b, w') ->
  exists a w1, m w = (Ok a, w1) /\ k a w1 = (Ok b, w').
Proof.
  unfold bind. destruct (m w) as [[a|e] w1]; intros H.
  - exists a, w1. split; [reflexivity | exact H].
  - discriminate H.
Qed.

Lemma bind_Ok_l {A B} (m : M A) (k : A -> M B) w a w' :
  m w = (Ok a, w') -> bind m k w = k a w'.
Proof. unfold bind. intros ->. reflexivity. Qed.

(** Decompose a successful run of a chain of binds: [H] becomes the run of
    the continuation, [a], [w] and [H1] the value, world and run of the
    first computation. *)
Tactic Notation "inv_bind" hyp(H) "as" ident(a) ident(w) ident(H1) :=
  apply bind_Ok in H; destruct H as (a & w & H1 & H).

Lemma ret_Ok {A} (a b : A) w w' : ret a w = (Ok b, w') -> a = b /\ w = w'.
Proof. unfold ret. intros H. inversion H. auto. Qed.

Lemma loc_Ok {A} (frame : list A) i a w w' :
  loc_ frame i w = (Ok a, w') -> nth_error frame i = Some a /\ w = w'.
Proof.
  unfold loc_. destruct (nth_error frame i); intros H.
  - apply ret_Ok in H. destruct H as [-> ->]. auto.
  - discriminate H.
Qed.

(** A successful comprehension ran its body successfully on every element. *)
Lemma mapM_Ok {A B} (f : A -> M B) l :
  forall w bs w', mapM f l w = (Ok bs, w') ->
  List.length bs = List.length l /\
  forall n a, nth_error l n = Some a ->
    exists b w1 w2, f a w1 = (Ok b, w2) /\ nth_error bs n = Some b.
Proof.
  induction l as [|x l IH]; intros w bs w' H; simpl in H.
  - apply ret_Ok in H. destruct H as [<- _]. split; [reflexivity|].
    intros [|n] a Hn; discriminate Hn.
  - inv_bind H as b w1 Hx. inv_bind H as bs' w2 Hl.
    apply ret_Ok in H. destruct H as [<- _].
    destruct (IH _ _ _ Hl) as [Hlen Hnth]. split; [simpl; congruence|].
    intros [|n] y Hn; simpl in Hn.
    + inversion Hn; subst y. exists b, w, w1. split; [assumption|reflexivity].
    + destruct (Hnth n y Hn) as (b' & w3 & w4 & Hf & Hb).
      exists b', w3, w4. split; assumption.
Qed.

(** *** Model.__init__ *)

Section ModelInit.

Variables sin cos acos : float -> float.

(** What a model that was built successfully holds. *)
Lemma Model_init_Ok instance w self w' :
  Model_init sin cos acos instance w = (Ok self, w') ->
  data self = instance /\
  total_demand self = int64_sum (map demand (customers instance)) /\
  total_capacity self = int64_sum (map capacity (sites instance)) /\
  site_fixed_costs self = map fixed_cost (sites instance) /\
  site_capacities self = map capacity (sites instance) /\
  status self = LpStatusNotSolved /\
  exists demand_constraints capacity_constraints w1 w2,
    constraints self = (demand_constraints ++ capacity_constraints)%list /\
    List.length demand_constraints = n_customers instance /\
    mapM (fun i =>
            cap <- loc_ (map capacity (sites instance)) i ;;
            ret {| name := "capacity_" ++ str_nat i;
                   lhs := map (fun j => x_ i j) (range (n_customers instance));
                   sense := LpConstraintLE;
                   rhs := Times (Z.min cap (int64_sum (map demand (customers instance))))
                                (y_ i) |})
         (range (n_sites instance)) w1 = (Ok capacity_constraints, w2).
Proof.
  unfold Model_init. intros H.
  inv_bind H as sc w1 Hsc. inv_bind H as ft w2 Hft. inv_bind H as st w3 Hst.
  inv_bind H as dc w4 Hdc. inv_bind H as cc w5 Hcc.
  apply ret_Ok in H. destruct H as [<- _]. simpl.
  repeat (split; [reflexivity|]).
  exists dc, cc, w4, w5. split; [reflexivity|]. split; [|exact Hcc].
  apply mapM_Ok in Hdc. destruct Hdc as [Hlen _].
  rewrite Hlen. unfold range. apply length_seq.
Qed.

End ModelInit.

Lemma nth_error_range n i : (i < n)%nat -> nth_error (range n) i = Some i.
Proof.
  intros Hi. unfold range.
  rewrite (nth_error_nth' (seq 0 n) 0%nat) by (rewrite length_seq; exact Hi).
  rewrite seq_nth by exact Hi. reflexivity.
Qed.

Lemma wrap64_in_range z : (- 2 ^ 63 <= z < 2 ^ 63)%Z -> wrap64 z = z.
Proof.
  intros H. unfold wrap64. rewrite Z.mod_small by lia. lia.
Qed.

Lemma int64_sum_from (l : list Z) :
  forall acc,
    (0 <= acc)%Z -> Forall (fun z => 0 <= z)%Z l ->
    (acc + fold_right Z.add 0 l < 2 ^ 63)%Z ->
    fold_left (fun a z => wrap64 (a + z)) l acc = (acc + fold_right Z.add 0 l)%Z.
Proof.
  induction l as [|x l IH]; intros acc Hacc Hl Hsum; simpl in *; [lia|].
  inversion Hl as [|? ? Hx Hl']; subst.
  assert (Hrest : (0 <= fold_right Z.add 0 l)%Z).
  { clear -Hl'. induction Hl'; simpl; lia. }
  rewrite wrap64_in_range by lia.
  rewrite IH by (try assumption; lia). lia.
Qed.

(** The sum of an [int64] column of non-negative entries is the exact sum
    as long as that is below 2^63. *)
Lemma int64_sum_exact (l : list Z) :
  Forall (fun z => 0 <= z)%Z l -> (fold_right Z.add 0 l < 2 ^ 63)%Z ->
  int64_sum l = fold_right Z.add 0%Z l.
Proof.
  intros Hl Hs. unfold int64_sum. rewrite int64_sum_from; [lia | lia | exact Hl | lia].
Qed.

Lemma Forall_map_nonneg {A} (f : A -> Z) (l : list A) :
  Forall (fun a => 0 <= f a)%Z l -> Forall (fun z => 0 <= z)%Z (map f l).
Proof.
  intros H. apply Forall_forall. intros z Hz. apply in_map_iff in Hz.
  destruct Hz as (a & <- & Hin). exact (proj1 (Forall_forall _ _) H a Hin).
Qed.

(** The capacity constraint of site [i], with the total the model keeps. *)
Lemma capacity_constraint_of_site
    (sin cos acos : float -> float) (instance : Instance) (w w' : World)
    (self : Model) (i : nat) :
  Model_init sin cos acos instance w = (Ok self, w') ->
  (i < n_sites instance)%nat ->
  exists site,
    nth_error (sites instance) i = Some site /\
    nth_error (constraints self) (n_customers instance + i) =
      Some {| name := "capacity_" ++ str_nat i;
              lhs := map (fun j => x_ i j) (range (n_customers instance));
              sense := LpConstraintLE;
              rhs := Times (Z.min (capacity site)
                                  (int64_sum (map demand (customers instance))))
                           (y_ i) |}.
Proof.
  intros Hinit Hi.
  destruct (Model_init_Ok _ _ _ _ _ _ _ Hinit)
    as (_ & Htd & _ & _ & _ & _ & dc & cc & w1 & w2 & Hcs & Hlen & Hcc).
  apply mapM_Ok in Hcc. destruct Hcc as [_ Hnth].
  destruct (Hnth i i (nth_error_range _ _ Hi)) as (c & w3 & w4 & Hf & Hc).
  inv_bind Hf as cap w5 Hcap. apply ret_Ok in Hf. destruct Hf as [<- _].
  apply loc_Ok in Hcap. destruct Hcap as [Hcap _].
  rewrite nth_error_map in Hcap.
  destruct (nth_error (sites instance) i) as [site|] eqn:Hs; [|discriminate Hcap].
  simpl in Hcap. inversion Hcap; subst cap.
  exists site. split; [reflexivity|].
  rewrite Hcs, nth_error_app2 by lia.
  replace (n_customers instance + i - List.length dc)%nat with i by lia.
  exact Hc.
Qed.

(** C7 (amended): for every instance whose demands are non-negative and add
    up to less than 2^63, and every site [i], the model that was built holds
    the constraint named [capacity_i], which bounds the sum of the flows
    [x[i][j]] over all customers [j] from above by
    [min(capacity[i], total demand) * y[i]], where the total demand is the
    sum of the demands of all customers: the coefficient of [y[i]] is the
    minimum of the site's capacity and the total demand, not the capacity.
    Without the bound, the total under the minimum is the [int64] sum the
    model keeps, which wraps around. *)
Theorem capacity_linking_constraint
    (sin cos acos : float -> float) (instance : Instance) (w w' : World)
    (self : Model) (i : nat) :
  Model_init sin cos acos instance w = (Ok self, w') ->
  (i < n_sites instance)%nat ->
  Forall (fun c => 0 <= demand c)%Z (customers instance) ->
  (fold_right Z.add 0 (map demand (customers instance)) < 2 ^ 63)%Z ->
  exists site,
    nth_error (sites instance) i = Some site /\
    nth_error (constraints self) (n_customers instance + i) =
      Some {| name := "capacity_" ++ str_nat i;
              lhs := map (fun j => x_ i j) (range (n_customers instance));
              sense := LpConstraintLE;
              rhs := Times (Z.min (capacity site)
                                  (fold_right Z.add 0%Z
                                     (map demand (customers instance))))
                           (y_ i) |} /\
    total_demand self = fold_right Z.add 0%Z (map demand (customers instance)).
Proof.
  intros Hinit Hi Hnn Hsum.
  destruct (capacity_constraint_of_site sin cos acos _ _ _ _ _ Hinit Hi)
    as (site & Hs & Hc).
  destruct (Model_init_Ok _ _ _ _ _ _ _ Hinit) as (_ & Htd & _).
  pose proof (int64_sum_exact _ (Forall_map_nonneg demand _ Hnn) Hsum) as Hex.
  exists site. split; [exact Hs|]. split.
  - rewrite <- Hex. exact Hc.
  - rewrite Htd. exact Hex.
Qed.

(** Scenario A has the constraint [x[0][0] <= min(100, 10) * y[0]]. *)
Lemma capacity_linking_constraint_witness :
  exists self w',
    Model_init Examples.sin0 Examples.cos0 Examples.acos0
      Examples.scenario_A Examples.w0 = (Ok self, w') /\
    nth_error (constraints self) 1 =
      Some {| name := "capacity_0"; lhs := [x_ 0 0]; sense := LpConstraintLE;
              rhs := Times 10 (y_ 0) |}.
Proof.
  eexists. eexists. split; [vm_compute; reflexivity|].
  edestruct (capacity_linking_constraint Examples.sin0 Examples.cos0 Examples.acos0
               Examples.scenario_A Examples.w0) with (i := 0%nat)
    as (site & Hs & Hc & _);
    [vm_compute; reflexivity | vm_compute; lia
     | repeat constructor; vm_compute; discriminate | vm_compute; reflexivity |].
  vm_compute in Hs. inversion Hs; subst site. exact Hc.
Defined.

(** C7 (as the specification has it) fails when the demands add up to 2^63
    or more: for two customers with a demand of 2^62 each and a site of
    capacity 1 the total demand is 2^63, the minimum of capacity and total
    demand is 1, and the coefficient of [y[0]] in [capacity_0] is -2^63, the
    wrapped [int64] sum. *)
Lemma capacity_linking_wraps_total :
  exists self w',
    Model_init Examples.sin0 Examples.cos0 Examples.acos0
      Examples.scenario_overflow Examples.w0 = (Ok self, w') /\
    fold_right Z.add 0%Z (map demand (customers Examples.scenario_overflow))
      = (2 ^ 63)%Z /\
    map capacity (sites Examples.scenario_overflow) = [1%Z] /\
    Z.min 1 (2 ^ 63) = 1%Z /\
    nth_error (constraints self) 2 =
      Some {| name := "capacity_0"; lhs := [x_ 0 0; x_ 0 1];
              sense := LpConstraintLE;
              rhs := Times (- 2 ^ 63) (y_ 0) |}.
Proof.
  eexists. eexists. split; [vm_compute; reflexivity|].
  repeat split; vm_compute; reflexivity.
Qed.

(** *** Model.solve *)

Section Solve.

Variable backend : Model -> option Z -> SolverReply.

(** The message of the pre-check. *)
Definition infeasible_message (self : Model) : string :=
  "Total demand (" ++ str_int (total_demand self)
    ++ ") exceeds total capacity (" ++ str_int (total_capacity self) ++ ")".

(** When the pre-check fires, [solve] returns at once: the world, and with
    it the log of backend calls, is the one it started from. *)
Lemma solve_precheck self timeout_sec w :
  (total_capacity self < total_demand self)%Z ->
  solve backend self timeout_sec w =
    (Ok ((LpStatusInfeasible, infeasible_message self), self), w).
Proof.
  intros H. unfold solve. apply Z.ltb_lt in H. rewrite H. reflexivity.
Qed.

(** Otherwise the backend is called once, without a time limit. *)
Lemma solve_calls_backend self timeout_sec w :
  (total_demand self <= total_capacity self)%Z ->
  exists r self',
    solve backend self timeout_sec w =
      (Ok (r, self'),
       {| trace := (trace w ++ [SolverCall None])%list;
          next_oid := next_oid w; rng := rng w |}) /\
    status self' = reply_status (backend self None) /\
    fst r = status self'.
Proof.
  intros H. unfold solve. apply Z.ltb_ge in H. rewrite H.
  unfold LpProblem_solve, bind, emit, ret. simpl.
  destruct (reply_status (backend self None) =? LpStatusInfeasible)%Z;
    [|destruct (reply_status (backend self None) =? LpStatusNotSolved)%Z];
    eexists; eexists; (split; [reflexivity|split; reflexivity]).
Qed.

End Solve.

(** C1 (amended): for every instance whose demands and capacities are
    non-negative, whose demands add up to less than 2^63, and whose total
    demand exceeds its total capacity, [Model.solve] on the model built from
    it returns the status [LpStatusInfeasible] with the message
    "Total demand (D) exceeds total capacity (C)", where D and C are the two
    totals, and it leaves the world as it found it: no call of the solver
    backend is logged. *)
Theorem solve_infeasible_without_backend
    (sin cos acos : float -> float) (backend : Model -> option Z -> SolverReply)
    (instance : Instance) (timeout_sec : Z) (w w' : World) (self : Model) :
  Model_init sin cos acos instance w = (Ok self, w') ->
  Forall (fun c => 0 <= demand c)%Z (customers instance) ->
  Forall (fun s => 0 <= capacity s)%Z (sites instance) ->
  (fold_right Z.add 0 (map demand (customers instance)) < 2 ^ 63)%Z ->
  (fold_right Z.add 0 (map capacity (sites instance))
     < fold_right Z.add 0 (map demand (customers instance)))%Z ->
  solve backend self timeout_sec w' =
    (Ok ((LpStatusInfeasible,
          "Total demand ("
            ++ str_int (fold_right Z.add 0%Z (map demand (customers instance)))
            ++ ") exceeds total capacity ("
            ++ str_int (fold_right Z.add 0%Z (map capacity (sites instance)))
            ++ ")"),
         self),
     w') /\
  trace (snd (solve backend self timeout_sec w')) = trace w'.
Proof.
  intros Hinit Hd Hc Hsum Hlt.
  destruct (Model_init_Ok _ _ _ _ _ _ _ Hinit) as (_ & Htd & Htc & _).
  rewrite (int64_sum_exact _ (Forall_map_nonneg demand _ Hd) Hsum) in Htd.
  rewrite (int64_sum_exact _ (Forall_map_nonneg capacity _ Hc)) in Htc by lia.
  assert (Hpre : (total_capacity self < total_demand self)%Z)
    by (rewrite Htd, Htc; exact Hlt).
  rewrite (solve_precheck backend self timeout_sec w' Hpre).
  unfold infeasible_message. rewrite Htd, Htc. split; reflexivity.
Qed.

(** Scenario B: demand 10 against capacity 5. *)
Lemma solve_infeasible_without_backend_witness :
  exists self w',
    Model_init Examples.sin0 Examples.cos0 Examples.acos0
      Examples.scenario_B Examples.w0 = (Ok self, w') /\
    solve Examples.backend_A self 120 w' =
      (Ok ((LpStatusInfeasible, "Total demand (10) exceeds total capacity (5)"), self),
       w') /\
    trace (snd (solve Examples.backend_A self 120 w')) = trace w'.
Proof.
  eexists. eexists. split; [vm_compute; reflexivity|].
  apply (solve_infeasible_without_backend Examples.sin0 Examples.cos0 Examples.acos0
           Examples.backend_A Examples.scenario_B 120 Examples.w0).
  - vm_compute; reflexivity.
  - repeat constructor; vm_compute; discriminate.
  - repeat constructor; vm_compute; discriminate.
  - vm_compute; reflexivity.
  - vm_compute; reflexivity.
Defined.

(** C1 (as the specification has it) fails when the demands add up to 2^63
    or more: for two customers with a demand of 2^62 each and a site of
    capacity 1 the total demand, 2^63, exceeds the total capacity, 1, but the
    total the model keeps is the wrapped [int64] sum -2^63, the pre-check
    does not fire, and [solve] calls the backend and returns its status. *)
Lemma solve_precheck_misses_overflow :
  exists self w' self',
    Model_init Examples.sin0 Examples.cos0 Examples.acos0
      Examples.scenario_overflow Examples.w0 = (Ok self, w') /\
    (fold_right Z.add 0 (map capacity (sites Examples.scenario_overflow))
       < fold_right Z.add 0 (map demand (customers Examples.scenario_overflow)))%Z /\
    total_demand self = (- 2 ^ 63)%Z /\ total_capacity self = 1%Z /\
    solve Examples.backend_A self 120 w' =
      (Ok ((LpStatusOptimal, "Model optimal"), self'),
       {| trace := (trace w' ++ [SolverCall None])%list;
          next_oid := next_oid w'; rng := rng w' |}).
Proof.
  eexists. eexists. eexists. split; [vm_compute; reflexivity|].
  repeat split; vm_compute; reflexivity.
Qed.

(** The model of scenario A is [model_A]; building it evaluates the
    distance between the two distinct location objects through the formula. *)
Lemma model_A_built :
  Model_init Examples.sin0 Examples.cos0 Examples.acos0
    Examples.scenario_A Examples.w0 =
  (Ok Examples.model_A,
   {| trace := [LibmCall Fsin 0%float; LibmCall Fsin 0%float;
                LibmCall Fcos 0%float; LibmCall Fcos 0%float;
                LibmCall Fcos 0%float; LibmCall Facos 1%float];
      next_oid := 4; rng := 0 |}).
Proof. vm_compute. reflexivity. Qed.

(** C2 (defect of the code): [timeout_sec] is accepted by [Model.solve] but
    never used.  For every model and every two values of the parameter the
    call behaves the same, and the only backend call it can log carries no
    time limit.  So with a backend that stops with [LpStatusNotSolved] when
    it is given a time limit, [solve(timeout_sec=1)] on the model of
    scenario A still runs the backend without one, to [LpStatusOptimal]. *)
Theorem solve_drops_timeout_sec
    (backend : Model -> option Z -> SolverReply) (self : Model)
    (t1 t2 : Z) (w : World) :
  solve backend self t1 w = solve backend self t2 w /\
  (trace (snd (solve backend self t1 w)) = trace w \/
   trace (snd (solve backend self t1 w)) = (trace w ++ [SolverCall None])%list) /\
  exists self',
    solve Examples.backend_slow Examples.model_A 1 Examples.w0 =
      (Ok ((LpStatusOptimal, "Model optimal"), self'),
       {| trace := [SolverCall None]; next_oid := 4; rng := 0 |}).
Proof.
  split; [reflexivity|]. split; [|eexists; vm_compute; reflexivity].
  destruct (Z_lt_le_dec (total_capacity self) (total_demand self)) as [H|H].
  - left. rewrite (solve_precheck backend self t1 w H). reflexivity.
  - right. destruct (solve_calls_backend backend self t1 w H) as (r & self' & E & _).
    rewrite E. reflexivity.
Qed.

(** *** Loc.haversine_distance: the value [v] and what is done with it *)

(** The world after one more logged event. *)
Definition logged (w : World) (e : event) : World :=
  {| trace := (trace w ++ [e])%list; next_oid := next_oid w; rng := rng w |}.

(** The outcome of CPython's wrapper for a libm function [f] at [x]. *)
Definition checked (f : float -> float) (x : float) : result float :=
  if is_nan (f x) && negb (is_nan x) then Raise (ValueError "math domain error")
  else if is_infinity (f x) && is_finite x then Raise (ValueError "math domain error")
  else Ok (f x).

Lemma math_1_run name f x w :
  math_1 name f x w = (checked f x, logged w (LibmCall name x)).
Proof.
  unfold math_1, checked, bind, emit, raise, ret, logged. simpl.
  destruct (is_nan (f x) && negb (is_nan x)); [reflexivity|].
  destruct (is_infinity (f x) && is_finite x); reflexivity.
Qed.

Lemma checked_cases f x :
  checked f x = Ok (f x) \/ checked f x = Raise (ValueError "math domain error").
Proof.
  unfold checked.
  destruct (is_nan (f x) && negb (is_nan x)); [right; reflexivity|].
  destruct (is_infinity (f x) && is_finite x); [right|left]; reflexivity.
Qed.

(** The two tests of the clamp exclude each other: a value below -1 is not
    above 1. *)
Lemma below_minus_one_not_above_one v :
  (v <? -1.0)%float = true -> (1.0 <? v)%float = false.
Proof.
  rewrite !ltb_spec.
  let c := eval vm_compute in (Prim2SF (-1.0)%float) in
    change (Prim2SF (-1.0)%float) with c.
  let c := eval vm_compute in (Prim2SF 1.0%float) in
    change (Prim2SF 1.0%float) with c.
  destruct (Prim2SF v) as [[|]|[|]| |[|] m e]; simpl; try discriminate; try reflexivity.
Qed.

(** C3 (as the code has it): the clamp uses strict comparisons at both ends
    of each band.  A value [v] with [1.0 < v < 1.01] is replaced by 1.0 and a
    value with [-1.01 < v < -1.0] by -1.0; the function then goes on to
    return [6378 * acos] of the replaced value.  Every other value, 1.01 and
    -1.01 among them, is left as it is. *)
Theorem clamp_open_bands
    (acos : float -> float) (self other : Loc) (v : float) (w : World) :
  ((1.0 <? v)%float = true -> (v <? c1_01)%float = true ->
     clamp v = 1.0%float /\
     distance_of_cosine acos self other v w =
       (r <- math_acos acos 1.0%float ;; ret (6378 * r)%float) w) /\
  ((- c1_01 <? v)%float = true -> (v <? -1.0)%float = true ->
     clamp v = (-1.0)%float /\
     distance_of_cosine acos self other v w =
       (r <- math_acos acos (-1.0)%float ;; ret (6378 * r)%float) w) /\
  (((1.0 <? v)%float && (v <? c1_01)%float = false) ->
   ((- c1_01 <? v)%float && (v <? -1.0)%float = false) ->
     clamp v = v).
Proof.
  split; [|split].
  - intros H1 H2.
    assert (E : clamp v = 1.0%float) by (unfold clamp; rewrite H1, H2; reflexivity).
    split; [exact E|]. unfold distance_of_cosine. rewrite E. reflexivity.
  - intros H1 H2.
    assert (E : clamp v = (-1.0)%float).
    { unfold clamp. rewrite (below_minus_one_not_above_one _ H2), H1, H2. reflexivity. }
    split; [exact E|]. unfold distance_of_cosine. rewrite E. reflexivity.
  - intros H1 H2. unfold clamp. rewrite H1, H2. reflexivity.
Qed.

(** At 1.005 the value is clamped to 1.0. *)
Lemma clamp_open_bands_witness :
  clamp 0x1.0147ae147ae14p+0%float = 1.0%float /\
  distance_of_cosine Examples.acos0 Examples.P Examples.P' 0x1.0147ae147ae14p+0%float
    Examples.w0 =
    (Ok 0%float, {| trace := [LibmCall Facos 1.0%float]; next_oid := 4; rng := 0 |}).
Proof.
  destruct (clamp_open_bands Examples.acos0 Examples.P Examples.P'
              0x1.0147ae147ae14p+0%float Examples.w0) as (H & _ & _).
  destruct H as [H1 H2]; [reflexivity | reflexivity |].
  split; [exact H1|]. rewrite H2. reflexivity.
Defined.

(** C3 (as the specification has it) fails at the closed ends of the two
    bands: 1.01 lies in (1.0, 1.01] and -1.01 in [-1.01, -1.0), yet neither is
    replaced, and the function raises instead of returning a distance. *)
Lemma clamp_keeps_band_ends :
  (1.0 <? c1_01)%float = true /\ (c1_01 <=? c1_01)%float = true /\
  (clamp c1_01 =? 1.0)%float = false /\
  distance_of_cosine Examples.acos0 Examples.P Examples.P' c1_01 Examples.w0 =
    (Raise (distance_error Examples.P Examples.P'), Examples.w0) /\
  (- c1_01 <=? - c1_01)%float = true /\ (- c1_01 <? -1.0)%float = true /\
  (clamp (- c1_01) =? -1.0)%float = false /\
  distance_of_cosine Examples.acos0 Examples.P Examples.P' (- c1_01) Examples.w0 =
    (Raise (distance_error Examples.P Examples.P'), Examples.w0).
Proof. repeat split; vm_compute; reflexivity. Qed.

(** *** Loc.haversine_distance: its outcome *)

Definition rbind {A B} (r : result A) (k : A -> result B) : result B :=
  match r with
  | Ok a => k a
  | Raise e => Raise e
  end.

Lemma fst_bind {A B} (m : M A) (k : A -> M B) w :
  fst (bind m k w) = rbind (fst (m w)) (fun a => fst (k a (snd (m w)))).
Proof. unfold bind. destruct (m w) as [[a|e] w1]; reflexivity. Qed.

Section Outcome.

Variables sin cos acos : float -> float.

(** The outcome of [haversine_distance], which does not depend on the world
    the call starts in. *)
Definition cosine_law_result (self other : Loc) : result float :=
  rbind (checked sin (lat self * pi / 180)%float) (fun s1 =>
  rbind (checked sin (lat other * pi / 180)%float) (fun s2 =>
  rbind (checked cos (lat self * pi / 180)%float) (fun c1 =>
  rbind (checked cos (lat other * pi / 180)%float) (fun c2 =>
  rbind (checked cos (lon other * pi / 180 - lon self * pi / 180)%float) (fun c3 =>
  Ok (s1 * s2 + c1 * c2 * c3)%float))))).

Definition distance_of_cosine_result (self other : Loc) (v : float) : result float :=
  if out_of_domain (clamp v) then Raise (distance_error self other)
  else rbind (checked acos (clamp v)) (fun r => Ok (6378 * r)%float).

Definition haversine_result (self other : Loc) : result float :=
  if Loc_eq self other then Ok 0%float
  else rbind (cosine_law_result self other) (distance_of_cosine_result self other).

Ltac step_math_1 :=
  rewrite math_1_run;
  match goal with
  | |- context [checked ?f ?x] => destruct (checked f x); simpl; [|reflexivity]
  end.

Lemma cosine_law_fst self other w :
  fst (cosine_law sin cos self other w) = cosine_law_result self other.
Proof.
  unfold cosine_law, cosine_law_result, math_sin, math_cos, bind.
  do 5 step_math_1. reflexivity.
Qed.

Lemma distance_of_cosine_fst self other v w :
  fst (distance_of_cosine acos self other v w) = distance_of_cosine_result self other v.
Proof.
  unfold distance_of_cosine, distance_of_cosine_result, math_acos, bind.
  destruct (out_of_domain (clamp v)); [reflexivity|].
  step_math_1. reflexivity.
Qed.

Lemma haversine_distance_fst self other w :
  fst (haversine_distance sin cos acos self other w) = haversine_result self other.
Proof.
  unfold haversine_distance, haversine_result.
  destruct (Loc_eq self other); [reflexivity|].
  rewrite fst_bind, cosine_law_fst.
  destruct (cosine_law_result self other); simpl; [|reflexivity].
  apply distance_of_cosine_fst.
Qed.

(** The cosine-law value is a float, or the [ValueError] of the math
    module: it never is the exception of the domain test. *)
Lemma cosine_law_result_cases self other :
  (exists v, cosine_law_result self other = Ok v) \/
  cosine_law_result self other = Raise (ValueError "math domain error").
Proof.
  unfold cosine_law_result.
  repeat match goal with
  | |- context [checked ?f ?x] =>
      destruct (checked_cases f x) as [E|E]; rewrite E; simpl;
      [|right; reflexivity]; clear E
  end.
  left. eexists. reflexivity.
Qed.

End Outcome.

Lemma in_pairs i j ns nc :
  (i < ns)%nat -> (j < nc)%nat -> In (i, j) (pairs (range ns) (range nc)).
Proof.
  intros Hi Hj. unfold pairs, range. apply in_flat_map. exists i. split.
  - apply in_seq. lia.
  - apply in_map. apply in_seq. lia.
Qed.

(** A model that was built holds, for every site [i] and customer [j], the
    shipping cost computed from the distance the call returned: every call
    of [haversine_distance] made by the constructor returned a number. *)
Lemma Model_init_Ok_distances sin cos acos instance w self w' i j :
  Model_init sin cos acos instance w = (Ok self, w') ->
  (i < n_sites instance)%nat -> (j < n_customers instance)%nat ->
  exists s c d,
    nth_error (sites instance) i = Some s /\
    nth_error (customers instance) j = Some c /\
    haversine_result sin cos acos (s_loc s) (c_loc c) = Ok d /\
    In ((i, j), (shipping_cost instance * d)%float) (shipping_costs self).
Proof.
  unfold Model_init. intros H Hi Hj.
  inv_bind H as sc w1 Hsc. inv_bind H as ft w2 Hft. inv_bind H as st w3 Hst.
  inv_bind H as dc w4 Hdc. inv_bind H as cc w5 Hcc.
  apply ret_Ok in H. destruct H as [<- _]. simpl.
  apply mapM_Ok in Hsc. destruct Hsc as [_ Hnth].
  destruct (In_nth_error _ _ (in_pairs _ _ _ _ Hi Hj)) as [n Hn].
  destruct (Hnth n (i, j) Hn) as (b & wa & wb & Hf & Hb). simpl in Hf.
  inv_bind Hf as s wc Hs. inv_bind Hf as c wd Hc. inv_bind Hf as d we Hd.
  apply ret_Ok in Hf. destruct Hf as [<- _].
  apply loc_Ok in Hs. destruct Hs as [Hs _].
  apply loc_Ok in Hc. destruct Hc as [Hc _].
  exists s, c, d. repeat split; try assumption.
  - rewrite <- (haversine_distance_fst sin cos acos (s_loc s) (c_loc c) wd), Hd.
    reflexivity.
  - eapply nth_error_In. exact Hb.
Qed.

(** C4: the call raises the exception of the domain test exactly when the
    two locations are distinct objects, the cosine-law value [v] was
    computed, and [v] after clamping is below -1 or above 1.  In that case
    the call returns no number and [acos] is not evaluated; and a constructor
    [Model(instance)] one of whose distance calls raises does not return a
    model: the exception leaves it. *)
Theorem distance_domain_error
    (sin cos acos : float -> float) (self other : Loc) (w : World) :
  (fst (haversine_distance sin cos acos self other w) = Raise (distance_error self other)
   <->
   Loc_eq self other = false /\
   exists v, fst (cosine_law sin cos self other w) = Ok v /\
             out_of_domain (clamp v) = true) /\
  (forall v w1,
     Loc_eq self other = false ->
     cosine_law sin cos self other w = (Ok v, w1) ->
     out_of_domain (clamp v) = true ->
     haversine_distance sin cos acos self other w =
       (Raise (distance_error self other), w1)) /\
  (forall instance i j s c e w0,
     (i < n_sites instance)%nat -> (j < n_customers instance)%nat ->
     nth_error (sites instance) i = Some s ->
     nth_error (customers instance) j = Some c ->
     fst (haversine_distance sin cos acos (s_loc s) (c_loc c) w) = Raise e ->
     exists e' w', Model_init sin cos acos instance w0 = (Raise e', w')).
Proof.
  split; [|split].
  - rewrite haversine_distance_fst, cosine_law_fst. unfold haversine_result.
    split.
    + destruct (Loc_eq self other); [discriminate|]. intros H. split; [reflexivity|].
      destruct (cosine_law_result_cases sin cos self other) as [[v E]|E];
        rewrite E in H; simpl in H; [|discriminate H].
      exists v. split; [exact E|].
      unfold distance_of_cosine_result in H.
      destruct (out_of_domain (clamp v)); [reflexivity|].
      destruct (checked_cases acos (clamp v)) as [Ea|Ea]; rewrite Ea in H;
        discriminate H.
    + intros (Hne & v & E & Hout). rewrite Hne, E. simpl.
      unfold distance_of_cosine_result. rewrite Hout. reflexivity.
  - intros v w1 Hne Hv Hout. unfold haversine_distance. rewrite Hne.
    rewrite (bind_Ok_l _ _ _ _ _ Hv). unfold distance_of_cosine. rewrite Hout. reflexivity.
  - intros instance i j s c e w0 Hi Hj Hs Hc He.
    destruct (Model_init sin cos acos instance w0) as [[m|e'] w'] eqn:E.
    + destruct (Model_init_Ok_distances _ _ _ _ _ _ _ _ _ E Hi Hj)
        as (s' & c' & d & Hs' & Hc' & Hd & _).
      rewrite Hs in Hs'. rewrite Hc in Hc'. inversion Hs'; inversion Hc'; subst s' c'.
      rewrite haversine_distance_fst, Hd in He. discriminate He.
    + exists e', w'. reflexivity.
Qed.

(** *** IEEE binary64 facts, from the specification of the primitive floats *)

Lemma float_mul_comm x y : (x * y = y * x)%float.
Proof.
  apply Prim2SF_inj. rewrite !FloatAxioms.mul_spec.
  unfold SF64mul, SFmul.
  destruct (Prim2SF x) as [sx|sx| |sx mx ex], (Prim2SF y) as [sy|sy| |sy my ey];
    try reflexivity; try (rewrite (xorb_comm sx sy); reflexivity).
  rewrite (xorb_comm sx sy), (Pos.mul_comm mx my), (Z.add_comm ex ey). reflexivity.
Qed.

(** Rounding works on the magnitude: the sign is carried along. *)
Lemma binary_round_opp m e :
  binary_round prec emax true m e = SFopp (binary_round prec emax false m e).
Proof.
  unfold binary_round, binary_round_aux.
  destruct (shl_align m e _) as [mz ez].
  destruct (shr_fexp prec emax (Z.pos mz) ez loc_Exact) as [mrs e'].
  destruct (shr_fexp prec emax _ e' loc_Exact) as [mrs' e''].
  destruct (shr_m mrs'); try reflexivity.
  destruct (e'' <=? emax - prec)%Z; reflexivity.
Qed.

Lemma binary_normalize_opp m e :
  binary_normalize prec emax (- m) e false = SFopp (binary_normalize prec emax m e false)
  \/ binary_normalize prec emax (- m) e false = binary_normalize prec emax m e false.
Proof.
  destruct m as [|p|p]; simpl.
  - right; reflexivity.
  - left. apply binary_round_opp.
  - left. rewrite binary_round_opp.
    destruct (binary_round prec emax false p e) as [[|]|[|]| |[|] ? ?]; reflexivity.
Qed.

Lemma SF64sub_swap x y :
  SF64sub y x = SFopp (SF64sub x y) \/ SF64sub y x = SF64sub x y.
Proof.
  unfold SF64sub.
  destruct x as [sx|sx| |sx mx ex], y as [sy|sy| |sy my ey];
    try (destruct sx; destruct sy; simpl; auto; fail);
    try (destruct sx; simpl; auto; fail);
    try (destruct sy; simpl; auto; fail); try (simpl; auto; fail).
  cbv beta iota zeta delta [SFsub]. rewrite (Z.min_comm ey ex).
  match goal with
  | |- context [binary_normalize _ _ (?b - ?a)%Z _ _ = SFopp _] =>
      replace (b - a)%Z with (- (a - b))%Z by lia
  end.
  apply binary_normalize_opp.
Qed.

(** [y - x] is the opposite of [x - y], or both are the same zero. *)
Lemma float_sub_swap x y : (y - x = - (x - y) \/ y - x = x - y)%float.
Proof.
  destruct (SF64sub_swap (Prim2SF x) (Prim2SF y)) as [H|H]; [left|right];
    apply Prim2SF_inj; rewrite ?opp_spec, !sub_spec; exact H.
Qed.

Lemma is_nan_opp x : is_nan (- x) = is_nan x.
Proof.
  unfold is_nan. rewrite !eqb_spec, opp_spec.
  destruct (Prim2SF x) as [[|]|[|]| |[|] m e]; simpl; try reflexivity.
  all: unfold SFeqb, SFcompare; simpl;
    rewrite ?Z.compare_refl, ?Pos.compare_refl; try reflexivity.
  all: rewrite ?Pos.compare_cont_refl; try reflexivity.
Qed.

Lemma abs_opp x : abs (- x) = abs x.
Proof.
  apply Prim2SF_inj. rewrite !abs_spec, opp_spec.
  destruct (Prim2SF x); reflexivity.
Qed.

Lemma is_finite_opp x : is_finite (- x) = is_finite x.
Proof.
  unfold is_finite, is_infinity. rewrite is_nan_opp, abs_opp. reflexivity.
Qed.

(** *** Loc.haversine_distance: symmetry *)

(** Two calls end the same way: with the same number, with the same
    exception, or both with the exception of the domain test (whose message
    names the two objects in the order of the call). *)
Definition same_outcome (r1 r2 : result float) : Prop :=
  match r1, r2 with
  | Ok d1, Ok d2 => d1 = d2
  | Raise (Exception _), Raise (Exception _) => True
  | Raise e1, Raise e2 => e1 = e2
  | _, _ => False
  end.

Section Symmetry.

Variables sin cos acos : float -> float.

(** The cosine of the math library is an even function. *)
Hypothesis cos_even : forall x, cos (- x)%float = cos x.

Lemma checked_cos_opp x : checked cos (- x)%float = checked cos x.
Proof. unfold checked. rewrite cos_even, is_nan_opp, is_finite_opp. reflexivity. Qed.

Lemma checked_cos_sub x y : checked cos (y - x)%float = checked cos (x - y)%float.
Proof.
  destruct (float_sub_swap x y) as [E|E]; rewrite E; [apply checked_cos_opp|reflexivity].
Qed.

Lemma cosine_law_result_sym self other :
  cosine_law_result sin cos other self = cosine_law_result sin cos self other.
Proof.
  unfold cosine_law_result.
  rewrite (checked_cos_sub (lon other * pi / 180)%float (lon self * pi / 180)%float).
  destruct (checked_cases sin (lat self * pi / 180)%float) as [E1|E1];
  destruct (checked_cases sin (lat other * pi / 180)%float) as [E2|E2];
  destruct (checked_cases cos (lat self * pi / 180)%float) as [E3|E3];
  destruct (checked_cases cos (lat other * pi / 180)%float) as [E4|E4];
  rewrite E1, E2, E3, E4; simpl; try reflexivity.
  rewrite (float_mul_comm (sin (lat other * pi / 180)%float)
                          (sin (lat self * pi / 180)%float)),
          (float_mul_comm (cos (lat other * pi / 180)%float)
                          (cos (lat self * pi / 180)%float)).
  reflexivity.
Qed.

Lemma Loc_eq_sym self other : Loc_eq other self = Loc_eq self other.
Proof. apply Nat.eqb_sym. Qed.

Lemma haversine_result_sym self other :
  same_outcome (haversine_result sin cos acos self other)
               (haversine_result sin cos acos other self).
Proof.
  unfold haversine_result. rewrite (Loc_eq_sym self other).
  destruct (Loc_eq self other); [reflexivity|].
  rewrite (cosine_law_result_sym self other).
  destruct (cosine_law_result sin cos self other) as [v|e]; simpl.
  - unfold distance_of_cosine_result.
    destruct (out_of_domain (clamp v)); [exact I|].
    destruct (checked_cases acos (clamp v)) as [E|E]; rewrite E; reflexivity.
  - destruct e; first [reflexivity | exact I].
Qed.

End Symmetry.

(** C9: with a math library whose cosine is even, [a.haversine_distance(b)]
    and [b.haversine_distance(a)] end the same way for every two locations;
    when one returns the number [d], the other returns the same float [d],
    and [d == d] holds in Python unless [d] is NaN. *)
Theorem haversine_distance_symmetric
    (sin cos acos : float -> float)
    (cos_even : forall x, cos (- x)%float = cos x)
    (a b : Loc) (w : World) :
  same_outcome (fst (haversine_distance sin cos acos a b w))
               (fst (haversine_distance sin cos acos b a w)) /\
  forall d, fst (haversine_distance sin cos acos a b w) = Ok d ->
            fst (haversine_distance sin cos acos b a w) = Ok d /\
            (is_nan d = false -> (d =? d)%float = true).
Proof.
  rewrite !haversine_distance_fst.
  pose proof (haversine_result_sym sin cos acos cos_even a b) as H.
  split; [exact H|].
  intros d E. rewrite E in H. split.
  - destruct (haversine_result sin cos acos b a) as [d'|e]; simpl in H;
      [rewrite H; reflexivity | contradiction].
  - unfold is_nan. intros Hn. apply negb_false_iff in Hn. exact Hn.
Qed.

(** The two location objects of the examples, with the tabulated library. *)
Lemma haversine_distance_symmetric_witness :
  same_outcome
    (fst (haversine_distance Examples.sin0 Examples.cos0 Examples.acos0
            Examples.P Examples.P' Examples.w0))
    (fst (haversine_distance Examples.sin0 Examples.cos0 Examples.acos0
            Examples.P' Examples.P Examples.w0)) /\
  fst (haversine_distance Examples.sin0 Examples.cos0 Examples.acos0
         Examples.P' Examples.P Examples.w0) = Ok 0%float.
Proof.
  destruct (haversine_distance_symmetric Examples.sin0 Examples.cos0 Examples.acos0
              (fun _ => eq_refl) Examples.P Examples.P' Examples.w0) as [H1 H2].
  split; [exact H1|]. apply (H2 0%float). reflexivity.
Defined.

(** *** Loc.haversine_distance: the shortcut for equal locations *)

(** C8 (defect of the code): the shortcut [self == other] compares object
    identity, because [Loc] defines no [__eq__].  The same object is at
    distance 0.0 from itself and no math function is called.  Two distinct
    objects always go through the formula, even with equal latitude and
    longitude: the first thing the call does is evaluate [sin]; and for the
    two objects [Q] and [Q'] at (25.61, -93.14) the cosine-law value rounds
    to 0.9999999999999999 and the distance returned is
    9.503960609436035e-05, not 0.0. *)
Theorem haversine_distance_shortcut_is_identity
    (sin cos acos : float -> float) (a b : Loc) (w : World) :
  (Loc_eq a b = true ->
     haversine_distance sin cos acos a b w = (Ok 0%float, w)) /\
  (Loc_eq a b = false ->
     exists t, trace (snd (haversine_distance sin cos acos a b w)) =
                 (trace w ++ LibmCall Fsin (lat a * pi / 180)%float :: t)%list) /\
  lat Examples.Q = lat Examples.Q' /\ lon Examples.Q = lon Examples.Q' /\
  haversine_distance Examples.sin1 Examples.cos1 Examples.acos1
    Examples.Q Examples.Q' Examples.w0 =
    (Ok 0x1.8ea0000000000p-14%float,
     {| trace := [LibmCall Fsin 0x1.c9b4d0f048de5p-2%float;
                  LibmCall Fsin 0x1.c9b4d0f048de5p-2%float;
                  LibmCall Fcos 0x1.c9b4d0f048de5p-2%float;
                  LibmCall Fcos 0x1.c9b4d0f048de5p-2%float;
                  LibmCall Fcos 0%float;
                  LibmCall Facos 0x1.fffffffffffffp-1%float];
        next_oid := 4; rng := 0 |}).
Proof.
  split; [|split; [|split; [reflexivity|split; [reflexivity|]]]].
  - intros E. unfold haversine_distance. rewrite E. reflexivity.
  - intros E. unfold haversine_distance. rewrite E.
    unfold cosine_law, distance_of_cosine, math_sin, math_cos, math_acos, bind.
    repeat (rewrite math_1_run;
            match goal with
            | |- context [checked ?f ?x] => destruct (checked f x)
            end;
            [|eexists; simpl; rewrite <- ?app_assoc; simpl; reflexivity]).
    unfold ret, raise.
    destruct (out_of_domain _);
      [eexists; simpl; rewrite <- ?app_assoc; simpl; reflexivity|].
    rewrite math_1_run.
    destruct (checked acos _);
      eexists; simpl; rewrite <- ?app_assoc; simpl; reflexivity.
  - vm_compute. reflexivity.
Qed.

(** *** Model.get_solution *)

(** The entries a dictionary comprehension with the filter [> eps] keeps. *)
Fixpoint selected {K} (value : K -> option float) (keys : list K) : list (K * float) :=
  match keys with
  | [] => []
  | k :: keys' =>
      match value k with
      | Some v => if (eps <? v)%float then (k, v) :: selected value keys'
                  else selected value keys'
      | None => selected value keys'
      end
  end.

Lemma above_eps_Ok {K} (value : K -> option float) keys :
  forall w l w', above_eps value keys w = (Ok l, w') ->
  l = selected value keys /\ w' = w.
Proof.
  induction keys as [|k keys IH]; intros w l w' H; simpl in H |- *.
  - apply ret_Ok in H. destruct H as [<- <-]. split; reflexivity.
  - destruct (value k) as [v|]; [|discriminate H].
    inv_bind H as rest w1 Hrest. apply ret_Ok in H. destruct H as [<- <-].
    destruct (IH _ _ _ Hrest) as [-> ->]. split; reflexivity.
Qed.

Lemma in_selected {K} (value : K -> option float) keys k v :
  In (k, v) (selected value keys) <->
  In k keys /\ value k = Some v /\ (eps <? v)%float = true.
Proof.
  induction keys as [|k0 keys IH]; simpl.
  - split; [intros [] | intros [[] _]].
  - destruct (value k0) as [v0|] eqn:E0.
    + destruct (eps <? v0)%float eqn:Ev; simpl; rewrite IH; split.
      * intros [H|H]; [inversion H; subst; auto | tauto].
      * intros [[->|H] [Hv He]]; [left; congruence | tauto].
      * tauto.
      * intros [[->|H] [Hv He]]; [congruence | tauto].
    + rewrite IH. split; [tauto|].
      intros [[->|H] [Hv He]]; [congruence | tauto].
Qed.

(** A comprehension whose body, when it succeeds, returns [g] of the
    element, returns [map g] when it succeeds. *)
Lemma mapM_Ok_map {A B} (f : A -> M B) (g : A -> B) l :
  (forall a w b w', f a w = (Ok b, w') -> b = g a) ->
  forall w bs w', mapM f l w = (Ok bs, w') -> bs = map g l.
Proof.
  intros Hf. induction l as [|x l IH]; intros w bs w' H; simpl in H.
  - apply ret_Ok in H. destruct H as [<- _]. reflexivity.
  - inv_bind H as b w1 Hx. inv_bind H as bs' w2 Hl.
    apply ret_Ok in H. destruct H as [<- _].
    simpl. rewrite (Hf _ _ _ _ Hx), (IH _ _ _ Hl). reflexivity.
Qed.




(** *** Instance.generate *)

(** A computation that raises nothing but [ValueError]. *)
Definition only_ValueError {A} (m : M A) : Prop :=
  forall w e w', m w = (Raise e, w') -> exists msg, e = ValueError msg.

Lemma only_ValueError_bind {A B} (m : M A) (k : A -> M B) :
  only_ValueError m -> (forall a, only_ValueError (k a)) -> only_ValueError (bind m k).
Proof.
  intros Hm Hk w e w' H. unfold bind in H.
  destruct (m w) as [[a|e1] w1] eqn:E.
  - exact (Hk a _ _ _ H).
  - inversion H; subst. exact (Hm _ _ _ E).
Qed.

Lemma only_ValueError_ret {A} (a : A) : only_ValueError (ret a).
Proof. intros w e w' H. discriminate H. Qed.

Lemma only_ValueError_raise {A} msg : only_ValueError (@raise A (ValueError msg)).
Proof. intros w e w' H. inversion H. exists msg. reflexivity. Qed.

Lemma only_ValueError_mapM {A B} (f : A -> M B) l :
  (forall a, only_ValueError (f a)) -> only_ValueError (mapM f l).
Proof.
  intros Hf. induction l as [|x l IH]; simpl.
  - apply only_ValueError_ret.
  - apply only_ValueError_bind; [apply Hf|]. intros b.
    apply only_ValueError_bind; [exact IH|]. intros bs. apply only_ValueError_ret.
Qed.

Lemma only_ValueError_take_rng n : only_ValueError (take_rng n).
Proof. intros w e w' H. discriminate H. Qed.

Lemma only_ValueError_make_locs frame : only_ValueError (make_locs frame).
Proof.
  assert (HL : forall la lo, only_ValueError (Loc_init la lo)).
  { intros la lo. unfold Loc_init.
    apply only_ValueError_bind; [|intros o; apply only_ValueError_ret].
    intros w e w' H. discriminate H. }
  destruct frame as [|r frame]; unfold make_locs.
  - apply only_ValueError_bind; [apply HL|]. intros _. apply only_ValueError_ret.
  - apply only_ValueError_mapM. intros r0. apply HL.
Qed.

Lemma only_ValueError_set_column {A B C} (f : A -> B -> C) frame values :
  only_ValueError (set_column f frame values).
Proof.
  unfold set_column. destruct (_ =? _)%nat;
    [apply only_ValueError_ret | apply only_ValueError_raise].
Qed.

Section GenerateProperties.

Variable usa_zips : list ZipRow.
Variable sample : nat -> nat -> list ZipRow -> list ZipRow.
Variable entropy : nat -> Z.

Lemma only_ValueError_get_random_us_locs n :
  only_ValueError (get_random_us_locs usa_zips sample n).
Proof.
  unfold get_random_us_locs. destruct (_ <? _)%nat; [apply only_ValueError_raise|].
  apply only_ValueError_bind; [apply only_ValueError_take_rng|].
  intros p. apply only_ValueError_ret.
Qed.

Lemma only_ValueError_randint low high size :
  only_ValueError (randint entropy low high size).
Proof.
  unfold randint.
  destruct (size =? 0)%nat; [apply only_ValueError_ret|].
  destruct (low <? - 2 ^ 63)%Z; [apply only_ValueError_raise|].
  destruct (2 ^ 63 - 1 <? high - 1)%Z; [apply only_ValueError_raise|].
  destruct (high - 1 <? low)%Z; [apply only_ValueError_raise|].
  apply only_ValueError_bind; [apply only_ValueError_take_rng|].
  intros p. apply only_ValueError_ret.
Qed.

(** A draw of at least one value from an empty range does not return. *)
Lemma randint_degenerate low size w l w' :
  (0 < size)%nat -> randint entropy low low size w = (Ok l, w') -> False.
Proof.
  intros Hs. unfold randint.
  destruct (size =? 0)%nat eqn:E; [apply Nat.eqb_eq in E; lia|].
  destruct (low <? - 2 ^ 63)%Z; [discriminate|].
  destruct (2 ^ 63 - 1 <? low - 1)%Z; [discriminate|].
  destruct (low - 1 <? low)%Z eqn:E1; [discriminate|].
  apply Z.ltb_ge in E1. lia.
Qed.

Lemma only_ValueError_generate nc dr ns cr fr sc :
  only_ValueError (generate usa_zips sample entropy nc dr ns cr fr sc).
Proof.
  unfold generate.
  repeat first
    [ apply only_ValueError_ret
    | apply only_ValueError_get_random_us_locs
    | apply only_ValueError_randint
    | apply only_ValueError_make_locs
    | apply only_ValueError_set_column
    | match goal with |- only_ValueError (if ?c then _ else _) => destruct c end
    | apply only_ValueError_bind; [|intro] ].
Qed.

End GenerateProperties.

(** C10: with at least one customer, a demand range whose two ends are equal
    makes [Instance.generate] raise ([ValueError]: the half-open integer draw
    needs [low < high]); with at least one site, so does a capacity range
    whose two ends are equal.  A fixed-cost range whose two ends are equal is
    not drawn from: when the call returns, every site has that constant as
    its fixed cost. *)
Theorem generate_degenerate_ranges
    (usa_zips : list ZipRow) (sample : nat -> nat -> list ZipRow -> list ZipRow)
    (entropy : nat -> Z)
    (n_customers : nat) (demand_range : Z * Z) (n_sites : nat)
    (capacity_range fixed_cost_range : Z * Z) (shipping_cost : float) (w : World) :
  ((0 < n_customers)%nat -> fst demand_range = snd demand_range ->
     exists msg,
       fst (generate usa_zips sample entropy n_customers demand_range n_sites
              capacity_range fixed_cost_range shipping_cost w)
       = Raise (ValueError msg)) /\
  ((0 < n_sites)%nat -> fst capacity_range = snd capacity_range ->
     exists msg,
       fst (generate usa_zips sample entropy n_customers demand_range n_sites
              capacity_range fixed_cost_range shipping_cost w)
       = Raise (ValueError msg)) /\
  (fst fixed_cost_range = snd fixed_cost_range ->
     forall instance w',
       generate usa_zips sample entropy n_customers demand_range n_sites
         capacity_range fixed_cost_range shipping_cost w = (Ok instance, w') ->
       Forall (fun s => fixed_cost s = fst fixed_cost_range) (sites instance)).
Proof.
  pose proof (only_ValueError_generate usa_zips sample entropy n_customers demand_range
                n_sites capacity_range fixed_cost_range shipping_cost w) as HVE.
  destruct (generate usa_zips sample entropy n_customers demand_range n_sites
              capacity_range fixed_cost_range shipping_cost w) as [[inst|e] w1] eqn:E.
  - unfold generate in E.
    inv_bind E as cs wa Hcs. inv_bind E as ls wb Hls. inv_bind E as ds wc Hds.
    inv_bind E as cs' wd Hcs'. inv_bind E as ss we Hss. inv_bind E as fs wf Hfs.
    inv_bind E as caps wg Hcaps. inv_bind E as ss' wh Hss'. inv_bind E as ls' wi Hls'.
    apply ret_Ok in E. destruct E as [<- _].
    split; [|split].
    + intros Hn Hd. exfalso. rewrite Hd in Hds. exact (randint_degenerate _ _ _ _ _ _ Hn Hds).
    + intros Hn Hc. exfalso. rewrite Hc in Hcaps.
      exact (randint_degenerate _ _ _ _ _ _ Hn Hcaps).
    + intros Hf instance w' Hi. inversion Hi; subst instance w'. clear Hi.
      apply Z.eqb_eq in Hf. rewrite Hf in Hfs.
      apply ret_Ok in Hfs. destruct Hfs as [<- _].
      unfold set_column in Hss'.
      destruct (_ =? _)%nat; [|discriminate Hss'].
      apply ret_Ok in Hss'. destruct Hss' as [<- _].
      unfold Instance_init. simpl. apply Forall_forall. intros s Hs.
      apply in_map_iff in Hs. destruct Hs as ([q l] & <- & Hp). simpl.
      apply in_combine_l in Hp.
      apply in_map_iff in Hp. destruct Hp as ([[r f] c] & <- & Hq). simpl.
      apply in_combine_l in Hq. apply in_combine_r in Hq.
      apply in_map_iff in Hq. destruct Hq as (r' & <- & _).
      reflexivity.
  - destruct (HVE e w1 eq_refl) as [msg ->].
    split; [|split].
    + intros _ _. exists msg. reflexivity.
    + intros _ _. exists msg. reflexivity.
    + intros _ instance w' Hi. discriminate Hi.
Qed.

(** One customer and two sites from the example data: a demand range
    (20, 20) or a capacity range (1000, 1000) raises, and the fixed-cost
    range (5, 5) with proper ranges elsewhere gives both sites the cost 5. *)
Lemma generate_degenerate_ranges_witness :
  fst (generate Examples.zips Examples.first_rows Examples.counter
         1 (20, 20)%Z 2 (1000, 4000)%Z (5, 5)%Z 1%float Examples.w0)
    = Raise (ValueError "low >= high") /\
  fst (generate Examples.zips Examples.first_rows Examples.counter
         1 (20, 80)%Z 2 (1000, 1000)%Z (5, 5)%Z 1%float Examples.w0)
    = Raise (ValueError "low >= high") /\
  exists instance w',
    generate Examples.zips Examples.first_rows Examples.counter
      1 (20, 80)%Z 2 (1000, 4000)%Z (5, 5)%Z 1%float Examples.w0
      = (Ok instance, w') /\
    Forall (fun s => fixed_cost s = 5%Z) (sites instance).
Proof.
  split; [vm_compute; reflexivity|]. split; [vm_compute; reflexivity|].
  eexists. eexists. split; [vm_compute; reflexivity|].
  destruct (generate_degenerate_ranges Examples.zips Examples.first_rows
              Examples.counter 1 (20, 80)%Z 2 (1000, 4000)%Z (5, 5)%Z 1%float
              Examples.w0) as (_ & _ & H).
  eapply (H eq_refl). vm_compute. reflexivity.
Defined.

(** ** Further properties of the code *)

(** *** Comprehensions *)

(** Every result of a successful comprehension was returned by its body on
    some element. *)
Lemma mapM_Ok_In {A B} (f : A -> M B) l :
  forall w bs w', mapM f l w = (Ok bs, w') ->
  forall b, In b bs -> exists a w1 w2, In a l /\ f a w1 = (Ok b, w2).
Proof.
  induction l as [|x l IH]; intros w bs w' H b Hb; simpl in H.
  - apply ret_Ok in H. destruct H as [<- _]. destruct Hb.
  - inv_bind H as b0 w1 Hx. inv_bind H as bs' w2 Hl.
    apply ret_Ok in H. destruct H as [<- _].
    destruct Hb as [<-|Hb].
    + exists x, w, w1. split; [left; reflexivity | exact Hx].
    + destruct (IH _ _ _ Hl b Hb) as (a & wa & wb & Ha & Hf).
      exists a, wa, wb. split; [right; exact Ha | exact Hf].
Qed.

(** A comprehension whose body returns on every element, in every world,
    returns. *)
Lemma mapM_succeeds {A B} (f : A -> M B) l :
  (forall a, In a l -> forall w, exists b w', f a w = (Ok b, w')) ->
  forall w, exists bs w', mapM f l w = (Ok bs, w').
Proof.
  induction l as [|x l IH]; intros Hf w; simpl.
  - exists [], w. reflexivity.
  - destruct (Hf x (or_introl eq_refl) w) as (b & w1 & Hx).
    destruct (IH (fun a Ha => Hf a (or_intror Ha)) w1) as (bs & w2 & Hl).
    exists (b :: bs), w2. unfold bind. rewrite Hx, Hl. reflexivity.
Qed.

(** *** What a computation may do to the world *)

(** [keeps R m]: every run of [m] takes a world to one related to it by [R],
    whether it returns or raises. *)
Definition keeps {A} (R : World -> World -> Prop) (m : M A) : Prop :=
  forall w, R w (snd (m w)).

Section Keeps.

Variable R : World -> World -> Prop.
Hypothesis R_refl : forall w, R w w.
Hypothesis R_trans : forall w1 w2 w3, R w1 w2 -> R w2 w3 -> R w1 w3.

Lemma keeps_ret {A} (a : A) : keeps R (ret a).
Proof. intros w. apply R_refl. Qed.

Lemma keeps_raise {A} e : keeps R (@raise A e).
Proof. intros w. apply R_refl. Qed.

Lemma keeps_bind {A B} (m : M A) (k : A -> M B) :
  keeps R m -> (forall a, keeps R (k a)) -> keeps R (bind m k).
Proof.
  intros Hm Hk w. unfold bind. specialize (Hm w).
  destruct (m w) as [[a|e] w1]; simpl in Hm.
  - eapply R_trans; [exact Hm | apply Hk].
  - exact Hm.
Qed.

Lemma keeps_mapM {A B} (f : A -> M B) l :
  (forall a, keeps R (f a)) -> keeps R (mapM f l).
Proof.
  intros Hf. induction l as [|x l IH]; simpl.
  - apply keeps_ret.
  - apply keeps_bind; [apply Hf|]. intros b.
    apply keeps_bind; [exact IH|]. intros bs. apply keeps_ret.
Qed.

Lemma keeps_loc_ {A} (frame : list A) i : keeps R (loc_ frame i).
Proof. unfold loc_. destruct (nth_error frame i); [apply keeps_ret | apply keeps_raise]. Qed.

Lemma keeps_dict_get {V} (d : list ((nat * nat) * V)) k : keeps R (dict_get d k).
Proof.
  induction d as [|[k' v] d IH]; simpl; [apply keeps_raise|].
  destruct (_ && _); [apply keeps_ret | exact IH].
Qed.

Lemma keeps_above_eps {K} (value : K -> option float) keys :
  keeps R (above_eps value keys).
Proof.
  induction keys as [|k keys IH]; simpl; [apply keeps_ret|].
  destruct (value k); [|apply keeps_raise].
  apply keeps_bind; [exact IH|]. intros rest. apply keeps_ret.
Qed.

End Keeps.

(** *** Model.get_solution: reading the variables *)

Definition none_vs_float : exn :=
  TypeError "'>' not supported between instances of 'NoneType' and 'float'".

(** The filter returns when every variable has a value... *)
Lemma above_eps_all_Some {K} (value : K -> option float) keys w :
  (forall k, In k keys -> value k <> None) ->
  above_eps value keys w = (Ok (selected value keys), w).
Proof.
  induction keys as [|k keys IH]; intros H; simpl; [reflexivity|].
  destruct (value k) as [v|] eqn:E; [|exfalso; exact (H k (or_introl eq_refl) E)].
  unfold bind. rewrite IH by (intros k' Hk'; apply H; right; exact Hk').
  reflexivity.
Qed.

(** ... and raises [TypeError], leaving the world alone, when one has none. *)
Lemma above_eps_some_None {K} (value : K -> option float) keys w :
  (exists k, In k keys /\ value k = None) ->
  above_eps value keys w = (Raise none_vs_float, w).
Proof.
  induction keys as [|k keys IH]; intros (k0 & Hin & Hnone); simpl; [destruct Hin|].
  destruct (value k) as [v|] eqn:E; [|reflexivity].
  destruct Hin as [<-|Hin]; [congruence|].
  unfold bind. rewrite IH by (exists k0; split; assumption). reflexivity.
Qed.

Lemma in_pairs_iff i j ns nc :
  In (i, j) (pairs (range ns) (range nc)) <-> (i < ns)%nat /\ (j < nc)%nat.
Proof.
  split; [|intros [Hi Hj]; apply in_pairs; assumption].
  unfold pairs, range. rewrite in_flat_map. intros (i' & Hi' & Hj).
  apply in_map_iff in Hj. destruct Hj as (j' & Hij & Hj'). inversion Hij; subst.
  apply in_seq in Hi'. apply in_seq in Hj'. lia.
Qed.

(** Prove [keeps R m] by following the structure of [m]; [Hr] and [Ht] are
    the reflexivity and transitivity of [R]. *)
Ltac keeps_auto Hr Ht :=
  cbv zeta;
  repeat first
    [ exact Hr | exact Ht
    | match goal with |- forall _, _ => intro end
    | match goal with |- keeps _ (if ?c then _ else _) => destruct c end
    | apply keeps_ret | apply keeps_raise | apply keeps_above_eps
    | apply keeps_loc_ | apply keeps_dict_get | apply keeps_mapM
    | apply keeps_bind ].

Lemma same_world_refl : forall w : World, w = w.
Proof. reflexivity. Qed.

Lemma same_world_trans : forall w1 w2 w3 : World, w2 = w1 -> w3 = w2 -> w3 = w1.
Proof. intros; congruence. Qed.

Lemma get_solution_snd (self : Model) (w : World) :
  snd (get_solution self w) = w.
Proof.
  assert (H : keeps (fun w1 w2 => w2 = w1) (get_solution self)).
  { unfold get_solution. keeps_auto same_world_refl same_world_trans. }
  apply H.
Qed.

Lemma values_all_or_missing {K} (value : K -> option float) keys :
  (forall k, In k keys -> value k <> None) \/
  (exists k, In k keys /\ value k = None).
Proof.
  induction keys as [|k keys [IH|(k0 & Hin & Hk0)]].
  - left. intros k [].
  - destruct (value k) eqn:E.
    + left. intros k' [<-|Hk']; [congruence | apply IH; exact Hk'].
    + right. exists k. split; [left; reflexivity | exact E].
  - right. exists k0. split; [right; exact Hin | exact Hk0].
Qed.

(** X2: when a site variable [y[i]] or a flow variable [x[i][j]] of the model
    has no value, as before any solver has run, [get_solution] raises
    [TypeError] (the comparison of [None] with [eps]). *)
Theorem get_solution_without_values (self : Model) (w : World) :
  (exists i, (i < n_sites (data self))%nat /\ y_varValue self i = None) \/
  (exists i j, (i < n_sites (data self))%nat /\ (j < n_customers (data self))%nat /\
               x_varValue self i j = None) ->
  get_solution self w = (Raise none_vs_float, w).
Proof.
  intros H. unfold get_solution.
  destruct (values_all_or_missing (y_varValue self) (range (n_sites (data self))))
    as [Hy|Hy].
  - destruct H as [(i & Hi & Hnone)|(i & j & Hi & Hj & Hnone)].
    + exfalso. apply (Hy i); [apply in_seq; lia | exact Hnone].
    + unfold bind at 1. rewrite (above_eps_all_Some _ _ _ Hy).
      unfold bind at 1. rewrite above_eps_some_None; [reflexivity|].
      exists (i, j). split; [apply in_pairs; assumption | exact Hnone].
  - unfold bind at 1. rewrite (above_eps_some_None _ _ _ Hy). reflexivity.
Qed.

(** The model of scenario A, before it is solved. *)
Lemma get_solution_without_values_witness :
  get_solution Examples.model_A Examples.w0 = (Raise none_vs_float, Examples.w0).
Proof.
  apply get_solution_without_values. left. exists 0%nat.
  split; [vm_compute; lia | reflexivity].
Defined.

(** *** Model.get_solution: flows *)

(** The first value a pair-keyed dictionary holds for a key. *)
Fixpoint dict_find {V} (d : list ((nat * nat) * V)) (k : nat * nat) : option V :=
  match d with
  | [] => None
  | (k', v) :: d' =>
      if (fst k' =? fst k)%nat && (snd k' =? snd k)%nat then Some v
      else dict_find d' k
  end.

Lemma dict_get_Ok {V} (d : list ((nat * nat) * V)) k w v w' :
  dict_get d k w = (Ok v, w') -> dict_find d k = Some v /\ w' = w.
Proof.
  induction d as [|[k' v'] d IH]; simpl; [discriminate|].
  destruct (_ && _); [|exact IH].
  intros H. apply ret_Ok in H. destruct H as [<- <-]. split; reflexivity.
Qed.

Lemma dict_get_found {V} (d : list ((nat * nat) * V)) k w v :
  dict_find d k = Some v -> dict_get d k w = (Ok v, w).
Proof.
  induction d as [|[k' v'] d IH]; simpl; [discriminate|].
  destruct (_ && _); [|exact IH]. intros H. inversion H. reflexivity.
Qed.

(** The shipping cost the model holds for an arc, 0 when it holds none. *)
Definition cost_of (self : Model) (k : nat * nat) : float :=
  match dict_find (shipping_costs self) k with
  | Some c => c
  | None => 0%float
  end.

Lemma mapM_Ok_Forall2 {A B} (f : A -> M B) l :
  forall w bs w', mapM f l w = (Ok bs, w') ->
  Forall2 (fun a b => exists w1 w2, f a w1 = (Ok b, w2)) l bs.
Proof.
  induction l as [|x l IH]; intros w bs w' H; simpl in H.
  - apply ret_Ok in H. destruct H as [<- _]. constructor.
  - inv_bind H as b w1 Hx. inv_bind H as bs' w2 Hl.
    apply ret_Ok in H. destruct H as [<- _].
    constructor; [exists w, w1; exact Hx | exact (IH _ _ _ Hl)].
Qed.

(** The rows of a frame with its [volume] column written: the row at each
    position is the old one but for that cell. *)
Lemma nth_error_set_sites_volume frame xval i s' :
  nth_error (set_sites_volume frame xval) i = Some s' ->
  exists s, nth_error frame i = Some s /\
    s_lat s' = s_lat s /\ s_lon s' = s_lon s /\ fixed_cost s' = fixed_cost s /\
    capacity s' = capacity s /\ s_loc s' = s_loc s /\
    s_volume s' = nth_error (volume_column (List.length frame) fst xval) i.
Proof.
  unfold set_sites_volume. generalize (volume_column (List.length frame) fst xval).
  revert i. induction frame as [|s frame IH]; intros i vs H.
  - destruct i; discriminate H.
  - destruct vs as [|v vs]; [destruct i; discriminate H|].
    destruct i as [|i]; simpl in H.
    + inversion H; subst. exists s. simpl. repeat split; reflexivity.
    + exact (IH _ _ H).
Qed.

Lemma nth_error_set_customers_volume frame xval j c' :
  nth_error (set_customers_volume frame xval) j = Some c' ->
  exists c, nth_error frame j = Some c /\
    c_lat c' = c_lat c /\ c_lon c' = c_lon c /\ c_loc c' = c_loc c /\
    demand c' = demand c /\
    c_volume c' = nth_error (volume_column (List.length frame) snd xval) j.
Proof.
  unfold set_customers_volume.
  generalize (volume_column (List.length frame) snd xval).
  revert j. induction frame as [|c frame IH]; intros j vs H.
  - destruct j; discriminate H.
  - destruct vs as [|v vs]; [destruct j; discriminate H|].
    destruct j as [|j]; simpl in H.
    + inversion H; subst. exists c. simpl. repeat split; reflexivity.
    + exact (IH _ _ H).
Qed.

Lemma length_volume_column len end_of xval :
  List.length (volume_column len end_of xval) = len.
Proof. unfold volume_column, range. rewrite length_map, length_seq. reflexivity. Qed.

Lemma nth_error_volume_column len end_of xval x :
  (x < len)%nat ->
  nth_error (volume_column len end_of xval) x =
    Some (py_sum (map snd (filter (fun e => (end_of (fst e) =? x)%nat) xval))).
Proof.
  intros Hx. unfold volume_column, range.
  rewrite nth_error_map, nth_error_seq.
  destruct (Nat.ltb_spec x len) as [_|Hge]; [reflexivity | lia].
Qed.

Lemma length_set_sites_volume frame xval :
  List.length (set_sites_volume frame xval) = List.length frame.
Proof.
  unfold set_sites_volume.
  rewrite length_map, length_combine, length_volume_column. apply Nat.min_id.
Qed.

Lemma length_set_customers_volume frame xval :
  List.length (set_customers_volume frame xval) = List.length frame.
Proof.
  unfold set_customers_volume.
  rewrite length_map, length_combine, length_volume_column. apply Nat.min_id.
Qed.

(** What [get_solution] computes, when it returns. *)
Lemma get_solution_Ok self w sol w' :
  get_solution self w = (Ok sol, w') ->
  ys sol = selected (y_varValue self) (range (n_sites (data self))) /\
  xs sol = selected (fun ij => x_varValue self (fst ij) (snd ij))
             (pairs (range (n_sites (data self))) (range (n_customers (data self)))) /\
  instance sol = with_volumes (data self) (xs sol) /\
  sol_status sol = status self /\
  value sol = lp_value self (objective self) 0%float /\
  (exists w1 w2,
     mapM (fun e => s <- loc_ (sites (instance sol)) (fst (fst e)) ;;
                    c <- loc_ (customers (instance sol)) (snd (fst e)) ;;
                    ret {| from := fst (fst e); to := snd (fst e); units := snd e;
                           from_loc := s_loc s; from_lat := lat (s_loc s);
                           from_lon := lon (s_loc s);
                           to_loc := c_loc c; to_lat := lat (c_loc c);
                           to_lon := lon (c_loc c) |})
          (xs sol) w1 = (Ok (flows sol), w2)) /\
  (exists terms w1 w2,
     mapM (fun e => c <- dict_get (shipping_costs self) (fst e) ;;
                    ret (c * snd e)%float)
          (xs sol) w1 = (Ok terms, w2) /\
     variable_costs sol = py_sum terms).
Proof.
  unfold get_solution. intros H.
  inv_bind H as yval w1 Hy. inv_bind H as xval w2 Hx. inv_bind H as fl w3 Hfl.
  inv_bind H as ft w4 Hft. inv_bind H as st w5 Hst.
  apply ret_Ok in H. destruct H as [<- _]. simpl.
  apply above_eps_Ok in Hy. destruct Hy as [-> ->].
  apply above_eps_Ok in Hx. destruct Hx as [-> ->].
  repeat (split; [reflexivity|]). split.
  - exists w, w3. exact Hfl.
  - exists st, w4, w5. split; [exact Hst | reflexivity].
Qed.

(** A frame with its [volume] column written keeps its rows but for that
    cell. *)
Lemma set_sites_volume_rows frame xval :
  Forall2 (fun s s' => s_lat s' = s_lat s /\ s_lon s' = s_lon s /\
                       fixed_cost s' = fixed_cost s /\ capacity s' = capacity s /\
                       s_loc s' = s_loc s)
          frame (set_sites_volume frame xval).
Proof.
  unfold set_sites_volume.
  pose proof (length_volume_column (List.length frame) fst xval) as Hlen.
  revert Hlen. generalize (volume_column (List.length frame) fst xval).
  induction frame as [|s frame IH]; intros vs Hlen.
  - constructor.
  - destruct vs as [|v vs]; [discriminate Hlen|]. simpl.
    constructor; [repeat split | apply IH; simpl in Hlen; congruence].
Qed.

Lemma set_customers_volume_rows frame xval :
  Forall2 (fun c c' => c_lat c' = c_lat c /\ c_lon c' = c_lon c /\
                       c_loc c' = c_loc c /\ demand c' = demand c)
          frame (set_customers_volume frame xval).
Proof.
  unfold set_customers_volume.
  pose proof (length_volume_column (List.length frame) snd xval) as Hlen.
  revert Hlen. generalize (volume_column (List.length frame) snd xval).
  induction frame as [|c frame IH]; intros vs Hlen.
  - constructor.
  - destruct vs as [|v vs]; [discriminate Hlen|]. simpl.
    constructor; [repeat split | apply IH; simpl in Hlen; congruence].
Qed.

(** X1: [get_solution] calls neither the solver nor the math library,
    creates no location object and draws no random number, whether it
    returns or raises.  What it writes are the two [volume] columns of the
    instance of the model, which is the instance of the solution it returns:
    the counts, the shipping cost and every other cell of the two frames are
    as before the call, the volume of site [i] is the sum of the recorded
    flows that leave [i], and the volume of customer [j] is the sum of the
    recorded flows that reach [j]. *)
Theorem get_solution_writes_volumes (self : Model) (w : World) :
  snd (get_solution self w) = w /\
  forall sol w', get_solution self w = (Ok sol, w') ->
    n_sites (instance sol) = n_sites (data self) /\
    n_customers (instance sol) = n_customers (data self) /\
    shipping_cost (instance sol) = shipping_cost (data self) /\
    Forall2 (fun s s' => s_lat s' = s_lat s /\ s_lon s' = s_lon s /\
                         fixed_cost s' = fixed_cost s /\ capacity s' = capacity s /\
                         s_loc s' = s_loc s)
            (sites (data self)) (sites (instance sol)) /\
    Forall2 (fun c c' => c_lat c' = c_lat c /\ c_lon c' = c_lon c /\
                         c_loc c' = c_loc c /\ demand c' = demand c)
            (customers (data self)) (customers (instance sol)) /\
    (forall i s', nth_error (sites (instance sol)) i = Some s' ->
       s_volume s' =
         Some (py_sum (map snd (filter (fun e => (fst (fst e) =? i)%nat) (xs sol))))) /\
    (forall j c', nth_error (customers (instance sol)) j = Some c' ->
       c_volume c' =
         Some (py_sum (map snd (filter (fun e => (snd (fst e) =? j)%nat) (xs sol))))).
Proof.
  split; [apply get_solution_snd|].
  intros sol w' H.
  destruct (get_solution_Ok _ _ _ _ H) as (_ & _ & -> & _).
  simpl. repeat (split; [reflexivity|]).
  split; [apply set_sites_volume_rows|].
  split; [apply set_customers_volume_rows|].
  split.
  - intros i s' Hs. pose proof Hs as Hlt.
    apply nth_error_set_sites_volume in Hs.
    destruct Hs as (s & Hs & _ & _ & _ & _ & _ & ->).
    apply nth_error_volume_column. apply nth_error_Some. congruence.
  - intros j c' Hc.
    apply nth_error_set_customers_volume in Hc.
    destruct Hc as (c & Hc & _ & _ & _ & _ & ->).
    apply nth_error_volume_column. apply nth_error_Some. congruence.
Qed.

(** Scenario A, solved: the call leaves the world alone and writes the
    volume 10 for the site. *)
Lemma get_solution_writes_volumes_witness :
  exists sol,
    get_solution (Examples.after_solve Examples.backend_A Examples.model_A)
      Examples.w0 = (Ok sol, Examples.w0) /\
    map s_volume (sites (instance sol)) = [Some 10%float] /\
    map s_volume (sites (data Examples.model_A)) = [None].
Proof.
  destruct (get_solution_writes_volumes
              (Examples.after_solve Examples.backend_A Examples.model_A) Examples.w0)
    as [Hw Hv].
  destruct (get_solution (Examples.after_solve Examples.backend_A Examples.model_A)
              Examples.w0) as [[sol|e] w'] eqn:E; [|vm_compute in E; discriminate E].
  simpl in Hw. subst w'. exists sol. split; [reflexivity|].
  vm_compute in E. inversion E; subst. split; vm_compute; reflexivity.
Defined.



(** The rows built from the frames with their [volume] column carry the
    locations of the frames as they were before the column was written. *)
Lemma flow_rows_of inst xv l rows :
  Forall2
    (fun e row => exists w1 w2,
       (s <- loc_ (sites (with_volumes inst xv)) (fst (fst e)) ;;
        c <- loc_ (customers (with_volumes inst xv)) (snd (fst e)) ;;
        ret {| from := fst (fst e); to := snd (fst e); units := snd e;
               from_loc := s_loc s; from_lat := lat (s_loc s);
               from_lon := lon (s_loc s);
               to_loc := c_loc c; to_lat := lat (c_loc c);
               to_lon := lon (c_loc c) |}) w1 = (Ok row, w2))
    l rows ->
  Forall (fun e => (eps <? snd e)%float = true) l ->
  Forall2
    (fun e row =>
       from row = fst (fst e) /\ to row = snd (fst e) /\ units row = snd e /\
       (eps <? units row)%float = true /\
       exists s c,
         nth_error (sites inst) (from row) = Some s /\
         nth_error (customers inst) (to row) = Some c /\
         from_loc row = s_loc s /\ to_loc row = c_loc c /\
         from_lat row = lat (s_loc s) /\ from_lon row = lon (s_loc s) /\
         to_lat row = lat (c_loc c) /\ to_lon row = lon (c_loc c))
    l rows.
Proof.
  intros Hfl.
  induction Hfl as [|e row l rows (wa & wb & Hrow) _ IH]; intros Heps.
  - constructor.
  - inversion Heps as [|? ? He Hl]; subst. constructor; [|exact (IH Hl)].
    inv_bind Hrow as s wc Hs. inv_bind Hrow as c wd Hc.
    apply ret_Ok in Hrow. destruct Hrow as [<- _]. simpl.
    apply loc_Ok in Hs. destruct Hs as [Hs _].
    apply loc_Ok in Hc. destruct Hc as [Hc _].
    simpl in Hs, Hc.
    apply nth_error_set_sites_volume in Hs.
    destruct Hs as (s0 & Hs0 & _ & _ & _ & _ & Hsl & _).
    apply nth_error_set_customers_volume in Hc.
    destruct Hc as (c0 & Hc0 & _ & _ & Hcl & _).
    rewrite Hsl, Hcl.
    repeat split; try assumption.
    exists s0, c0. repeat split; assumption.
Qed.

(** X4: the [flows] frame has one row per entry of the flow dictionary, in
    the same order; a row carries the arc's two ends and units (above [eps]),
    and the location object and coordinates of the site and of the customer
    at these positions of the instance. *)
Theorem get_solution_flow_rows (self : Model) (w w' : World) (sol : Solution) :
  get_solution self w = (Ok sol, w') ->
  Forall2
    (fun e row =>
       from row = fst (fst e) /\ to row = snd (fst e) /\ units row = snd e /\
       (eps <? units row)%float = true /\
       exists s c,
         nth_error (sites (data self)) (from row) = Some s /\
         nth_error (customers (data self)) (to row) = Some c /\
         from_loc row = s_loc s /\ to_loc row = c_loc c /\
         from_lat row = lat (s_loc s) /\ from_lon row = lon (s_loc s) /\
         to_lat row = lat (c_loc c) /\ to_lon row = lon (c_loc c))
    (xs sol) (flows sol).
Proof.
  intros H. destruct (get_solution_Ok _ _ _ _ H)
    as (_ & Hxs & Hinst & _ & _ & (w1 & w2 & Hfl) & _).
  apply mapM_Ok_Forall2 in Hfl. rewrite Hinst in Hfl.
  apply (flow_rows_of (data self) (xs sol)); [exact Hfl|].
  apply Forall_forall. intros [[i j] v] He. rewrite Hxs in He.
  apply in_selected in He. simpl. tauto.
Qed.

Lemma get_solution_flow_rows_witness :
  exists sol w',
    get_solution (Examples.after_solve Examples.backend_A Examples.model_A)
      Examples.w0 = (Ok sol, w') /\
    List.length (flows sol) = List.length (xs sol).
Proof.
  eexists. eexists. split; [vm_compute; reflexivity|].
  symmetry. eapply Forall2_length.
  eapply (get_solution_flow_rows
            (Examples.after_solve Examples.backend_A Examples.model_A) Examples.w0).
  vm_compute. reflexivity.
Defined.

(** *** Model.solve: what the caller gets back *)

(** The message [solve] attaches to a status of the backend. *)
Definition message_of (s : Z) : string :=
  if (s =? LpStatusInfeasible)%Z then "Model is infeasible"
  else if (s =? LpStatusNotSolved)%Z then "Model not solved to optimality"
  else "Model optimal".

Lemma solve_run backend self timeout_sec w :
  (total_demand self <= total_capacity self)%Z ->
  solve backend self timeout_sec w =
    (Ok ((reply_status (backend self None),
          message_of (reply_status (backend self None))),
         {| data := data self;
            site_fixed_costs := site_fixed_costs self;
            site_capacities := site_capacities self;
            total_demand := total_demand self;
            total_capacity := total_capacity self;
            shipping_costs := shipping_costs self;
            objective := objective self;
            constraints := constraints self;
            status := reply_status (backend self None);
            y_varValue := reply_y (backend self None);
            x_varValue := reply_x (backend self None) |}),
     logged w (SolverCall None)).
Proof.
  intros H. unfold solve, message_of. apply Z.ltb_ge in H. rewrite H.
  unfold LpProblem_solve, bind, emit, ret, logged. simpl.
  destruct (reply_status (backend self None) =? LpStatusInfeasible)%Z;
    [|destruct (reply_status (backend self None) =? LpStatusNotSolved)%Z];
    reflexivity.
Qed.

(** X5: when the pre-check passes, [solve] returns the status of the backend
    unchanged, with "Model is infeasible" for [LpStatusInfeasible],
    "Model not solved to optimality" for [LpStatusNotSolved], and
    "Model optimal" for every other status: also for [LpStatusUnbounded] and
    [LpStatusUndefined]. *)
Theorem solve_status_message
    (backend : Model -> option Z -> SolverReply) (self : Model)
    (timeout_sec : Z) (w : World) :
  (total_demand self <= total_capacity self)%Z ->
  exists msg self' w',
    solve backend self timeout_sec w =
      (Ok ((reply_status (backend self None), msg), self'), w') /\
    (reply_status (backend self None) = LpStatusInfeasible ->
       msg = "Model is infeasible") /\
    (reply_status (backend self None) = LpStatusNotSolved ->
       msg = "Model not solved to optimality") /\
    (reply_status (backend self None) <> LpStatusInfeasible ->
     reply_status (backend self None) <> LpStatusNotSolved ->
       msg = "Model optimal").
Proof.
  intros H. rewrite (solve_run backend self timeout_sec w H).
  eexists. eexists. eexists. split; [reflexivity|]. unfold message_of.
  repeat split.
  - intros ->. reflexivity.
  - intros ->. reflexivity.
  - intros H1 H2. apply Z.eqb_neq in H1, H2. rewrite H1, H2. reflexivity.
Qed.

(** A backend that gives up with [LpStatusUndefined]: the caller is told
    "Model optimal". *)
Lemma solve_status_message_witness :
  exists self' w',
    solve (fun _ _ => {| reply_status := LpStatusUndefined;
                         reply_y := fun _ => None; reply_x := fun _ _ => None |})
          Examples.model_A 120 Examples.w0 =
      (Ok ((LpStatusUndefined, "Model optimal"), self'), w').
Proof.
  destruct (solve_status_message
              (fun _ _ => {| reply_status := LpStatusUndefined;
                             reply_y := fun _ => None; reply_x := fun _ _ => None |})
              Examples.model_A 120 Examples.w0)
    as (msg & self' & w' & E & _ & _ & H); [vm_compute; discriminate|].
  exists self', w'. rewrite E, H; [reflexivity | discriminate | discriminate].
Defined.

Lemma solve_static backend self self' timeout_sec w w' (r : Z * string) :
  solve backend self timeout_sec w = (Ok (r, self'), w') ->
  data self' = data self /\
  site_fixed_costs self' = site_fixed_costs self /\
  shipping_costs self' = shipping_costs self.
Proof.
  intros H.
  destruct (Z_lt_le_dec (total_capacity self) (total_demand self)) as [Hlt|Hle].
  - rewrite (solve_precheck backend self timeout_sec w Hlt) in H.
    inversion H; subst. repeat split.
  - rewrite (solve_run backend self timeout_sec w Hle) in H.
    inversion H; subst. repeat split.
Qed.

(** X6: [solve] changes nothing of the model but its status and the values
    of its variables: the instance, the cost tables, the totals, the
    objective and the constraints after the call are those before it, and it
    allocates no object and draws no random number.  When the pre-check
    fires the model is not touched at all (its status stays what it was,
    while the call returns [LpStatusInfeasible]); otherwise the status and
    the values are the ones the backend replied. *)
Theorem solve_keeps_formulation
    (backend : Model -> option Z -> SolverReply) (self self' : Model)
    (timeout_sec : Z) (w w' : World) (r : Z * string) :
  solve backend self timeout_sec w = (Ok (r, self'), w') ->
  data self' = data self /\
  site_fixed_costs self' = site_fixed_costs self /\
  site_capacities self' = site_capacities self /\
  total_demand self' = total_demand self /\
  total_capacity self' = total_capacity self /\
  shipping_costs self' = shipping_costs self /\
  objective self' = objective self /\
  constraints self' = constraints self /\
  next_oid w' = next_oid w /\ rng w' = rng w /\
  ((total_capacity self < total_demand self)%Z ->
     self' = self /\ w' = w /\ fst r = LpStatusInfeasible) /\
  ((total_demand self <= total_capacity self)%Z ->
     status self' = fst r /\
     status self' = reply_status (backend self None) /\
     y_varValue self' = reply_y (backend self None) /\
     x_varValue self' = reply_x (backend self None)).
Proof.
  intros H.
  destruct (Z_lt_le_dec (total_capacity self) (total_demand self)) as [Hlt|Hle].
  - rewrite (solve_precheck backend self timeout_sec w Hlt) in H.
    inversion H; subst. clear H.
    repeat (split; [reflexivity|]). split; [|intros; lia].
    intros _. repeat split.
  - rewrite (solve_run backend self timeout_sec w Hle) in H.
    inversion H; subst. clear H. simpl.
    repeat (split; [reflexivity|]). split; [intros; lia|].
    intros _. repeat split.
Qed.

(** Scenario A, solved. *)
Lemma solve_keeps_formulation_witness :
  exists r self' w',
    solve Examples.backend_A Examples.model_A 120 Examples.w0 = (Ok (r, self'), w') /\
    constraints self' = constraints Examples.model_A /\
    status self' = LpStatusOptimal.
Proof.
  destruct (solve Examples.backend_A Examples.model_A 120 Examples.w0)
    as [[[r self']|e] w'] eqn:E; [|vm_compute in E; discriminate E].
  exists r, self', w'. split; [reflexivity|].
  destruct (solve_keeps_formulation _ _ _ _ _ _ _ E)
    as (_ & _ & _ & _ & _ & _ & _ & Hc & _ & _ & _ & Hs).
  split; [exact Hc|]. destruct Hs as (_ & Hs & _); [vm_compute; discriminate|].
  exact Hs.
Defined.

(** *** Model.__init__: the formulation *)

Section Formulation.

Variables sin cos acos : float -> float.

(** The distance the constructor uses for the arc from site [i] to customer
    [j]: the number [haversine_distance] returns for their two location
    objects (0 where there is no such site or customer, or no number). *)
Definition arc_distance (instance : Instance) (ij : nat * nat) : float :=
  match nth_error (sites instance) (fst ij), nth_error (customers instance) (snd ij) with
  | Some s, Some c =>
      match haversine_result sin cos acos (s_loc s) (c_loc c) with
      | Ok d => d
      | Raise _ => 0%float
      end
  | _, _ => 0%float
  end.

(** The five comprehensions of a successful constructor, spelled out. *)
Lemma Model_init_inv instance w self w' :
  Model_init sin cos acos instance w = (Ok self, w') ->
  let s_ids := range (n_sites instance) in
  let c_ids := range (n_customers instance) in
  shipping_costs self =
    map (fun ij => (ij, (shipping_cost instance * arc_distance instance ij)%float))
        (pairs s_ids c_ids) /\
  (forall i j, (i < n_sites instance)%nat -> (j < n_customers instance)%nat ->
     exists s c,
       nth_error (sites instance) i = Some s /\
       nth_error (customers instance) j = Some c /\
       haversine_result sin cos acos (s_loc s) (c_loc c)
         = Ok (arc_distance instance (i, j))) /\
  objective self =
    (lpSum (map (fun i => (Int (nth i (map fixed_cost (sites instance)) 0%Z), y_ i))
                s_ids)
     ++ lpSum (map (fun ij => (Float (cost_of self ij), x_ (fst ij) (snd ij)))
                   (pairs s_ids c_ids)))%list /\
  constraints self =
    (map (fun j => {| name := "demand_" ++ str_nat j;
                      lhs := map (fun i => x_ i j) s_ids;
                      sense := LpConstraintGE;
                      rhs := Constant (nth j (map demand (customers instance)) 0%Z) |})
         c_ids
     ++ map (fun i => {| name := "capacity_" ++ str_nat i;
                         lhs := map (fun j => x_ i j) c_ids;
                         sense := LpConstraintLE;
                         rhs := Times (Z.min (nth i (map capacity (sites instance)) 0%Z)
                                             (total_demand self))
                                      (y_ i) |})
            s_ids)%list /\
  (forall i, (i < n_sites instance)%nat -> (i < List.length (sites instance))%nat) /\
  (forall j, (j < n_customers instance)%nat -> (j < List.length (customers instance))%nat) /\
  (forall i j, (i < n_sites instance)%nat -> (j < n_customers instance)%nat ->
     dict_find (shipping_costs self) (i, j) <> None).
Proof.
  unfold Model_init. intros H.
  inv_bind H as sc w1 Hsc. inv_bind H as ft w2 Hft. inv_bind H as st w3 Hst.
  inv_bind H as dc w4 Hdc. inv_bind H as cc w5 Hcc.
  apply ret_Ok in H. destruct H as [<- _]. cbv zeta. simpl.
  assert (Hdist : forall i j, (i < n_sites instance)%nat -> (j < n_customers instance)%nat ->
            exists s c,
              nth_error (sites instance) i = Some s /\
              nth_error (customers instance) j = Some c /\
              haversine_result sin cos acos (s_loc s) (c_loc c)
                = Ok (arc_distance instance (i, j))).
  { intros i j Hi Hj.
    destruct (In_nth_error _ _ (in_pairs _ _ _ _ Hi Hj)) as [n Hn].
    destruct (proj2 (mapM_Ok _ _ _ _ _ Hsc) n (i, j) Hn) as (b & wa & wb & Hf & _).
    simpl in Hf.
    inv_bind Hf as s wc Hs. inv_bind Hf as c wd Hc. inv_bind Hf as d we Hd.
    apply loc_Ok in Hs. destruct Hs as [Hs _].
    apply loc_Ok in Hc. destruct Hc as [Hc _].
    exists s, c. repeat split; try assumption.
    unfold arc_distance. simpl. rewrite Hs, Hc.
    rewrite <- (haversine_distance_fst sin cos acos (s_loc s) (c_loc c) wd), Hd.
    reflexivity. }
  assert (Esc : sc = map (fun ij => (ij, (shipping_cost instance
                                          * arc_distance instance ij)%float))
                         (pairs (range (n_sites instance)) (range (n_customers instance)))).
  { eapply mapM_Ok_map; [|exact Hsc].
    intros ij wa b wb Hb.
    inv_bind Hb as s wc Hs. inv_bind Hb as c wd Hc. inv_bind Hb as d we Hd.
    apply ret_Ok in Hb. destruct Hb as [<- _].
    apply loc_Ok in Hs. destruct Hs as [Hs _].
    apply loc_Ok in Hc. destruct Hc as [Hc _].
    unfold arc_distance. rewrite Hs, Hc.
    rewrite <- (haversine_distance_fst sin cos acos (s_loc s) (c_loc c) wd), Hd.
    reflexivity. }
  split; [exact Esc|]. split; [exact Hdist|]. split; [|split; [|split; [|split]]].
  - f_equal; f_equal.
    + eapply mapM_Ok_map; [|exact Hft].
      intros i wa b wb Hb. inv_bind Hb as f wc Hf.
      apply ret_Ok in Hb. destruct Hb as [<- _].
      apply loc_Ok in Hf. destruct Hf as [Hf _].
      rewrite (nth_error_nth _ _ 0%Z Hf). reflexivity.
    + eapply mapM_Ok_map; [|exact Hst].
      intros ij wa b wb Hb. inv_bind Hb as c wc Hc.
      apply ret_Ok in Hb. destruct Hb as [<- _].
      apply dict_get_Ok in Hc. destruct Hc as [Hc _].
      unfold cost_of. simpl. rewrite Hc. reflexivity.
  - f_equal.
    + eapply mapM_Ok_map; [|exact Hdc].
      intros j wa b wb Hb. inv_bind Hb as c wc Hc.
      apply ret_Ok in Hb. destruct Hb as [<- _].
      apply loc_Ok in Hc. destruct Hc as [Hc _].
      rewrite (nth_error_nth _ _ 0%Z (map_nth_error demand _ _ Hc)). reflexivity.
    + eapply mapM_Ok_map; [|exact Hcc].
      intros i wa b wb Hb. inv_bind Hb as cap wc Hc.
      apply ret_Ok in Hb. destruct Hb as [<- _].
      apply loc_Ok in Hc. destruct Hc as [Hc _].
      rewrite (nth_error_nth _ _ 0%Z Hc). reflexivity.
  - intros i Hi.
    destruct (proj2 (mapM_Ok _ _ _ _ _ Hcc) i i (nth_error_range _ _ Hi))
      as (b & wa & wb & Hf & _).
    inv_bind Hf as cap wc Hc. apply loc_Ok in Hc. destruct Hc as [Hc _].
    assert (Hlt : (i < List.length (map capacity (sites instance)))%nat)
      by (apply nth_error_Some; congruence).
    rewrite length_map in Hlt. exact Hlt.
  - intros j Hj.
    destruct (proj2 (mapM_Ok _ _ _ _ _ Hdc) j j (nth_error_range _ _ Hj))
      as (b & wa & wb & Hf & _).
    inv_bind Hf as c wc Hc. apply loc_Ok in Hc. destruct Hc as [Hc _].
    apply nth_error_Some. congruence.
  - intros i j Hi Hj.
    destruct (In_nth_error _ _ (in_pairs _ _ _ _ Hi Hj)) as [n Hn].
    destruct (proj2 (mapM_Ok _ _ _ _ _ Hst) n (i, j) Hn) as (b & wa & wb & Hf & _).
    simpl in Hf. inv_bind Hf as c wc Hc.
    apply dict_get_Ok in Hc. destruct Hc as [Hc _]. congruence.
Qed.

End Formulation.

Lemma dict_find_map {V} (g : nat * nat -> V) l k :
  In k l -> dict_find (map (fun ij => (ij, g ij)) l) k = Some (g k).
Proof.
  induction l as [|k' l IH]; intros Hin; [destruct Hin|]. simpl.
  destruct ((fst k' =? fst k)%nat && (snd k' =? snd k)%nat) eqn:E.
  - apply andb_true_iff in E. destruct E as [E1 E2].
    apply Nat.eqb_eq in E1, E2. destruct k, k'. simpl in *. subst. reflexivity.
  - destruct Hin as [->|Hin]; [|exact (IH Hin)].
    rewrite !Nat.eqb_refl in E. discriminate E.
Qed.

(** X7: for every customer [j], constraint number [j] of the model that was
    built is [demand_j]: the sum of the flows [x[i][j]] over all sites [i] is
    at least the customer's demand. *)
Theorem demand_constraint
    (sin cos acos : float -> float) (instance : Instance) (w w' : World)
    (self : Model) (j : nat) :
  Model_init sin cos acos instance w = (Ok self, w') ->
  (j < n_customers instance)%nat ->
  exists customer,
    nth_error (customers instance) j = Some customer /\
    nth_error (constraints self) j =
      Some {| name := "demand_" ++ str_nat j;
              lhs := map (fun i => x_ i j) (range (n_sites instance));
              sense := LpConstraintGE;
              rhs := Constant (demand customer) |}.
Proof.
  intros H Hj.
  destruct (Model_init_inv sin cos acos _ _ _ _ H) as (_ & _ & _ & Hc & _ & Hlen & _).
  destruct (nth_error (customers instance) j) as [c|] eqn:E;
    [|apply nth_error_None in E; specialize (Hlen j Hj); lia].
  exists c. split; [reflexivity|].
  rewrite Hc, nth_error_app1 by (rewrite length_map; unfold range; rewrite length_seq; exact Hj).
  rewrite nth_error_map, (nth_error_range _ _ Hj). simpl.
  rewrite (nth_error_nth _ _ 0%Z (map_nth_error demand _ _ E)). reflexivity.
Qed.

Lemma demand_constraint_witness :
  nth_error (constraints Examples.model_A) 0 =
    Some {| name := "demand_0"; lhs := [x_ 0 0]; sense := LpConstraintGE;
            rhs := Constant 10 |}.
Proof.
  destruct (demand_constraint Examples.sin0 Examples.cos0 Examples.acos0
              Examples.scenario_A Examples.w0 _ Examples.model_A 0 model_A_built)
    as (c & Hc & H); [vm_compute; lia|].
  vm_compute in Hc. inversion Hc; subst c. exact H.
Defined.

(** X8: the objective of the model that was built is, in this order, the
    fixed cost of each site times [y[i]], then for each site [i] and customer
    [j] the shipping cost per unit distance times the distance
    [haversine_distance] returned for the two location objects, times
    [x[i][j]], without the products whose coefficient is zero (PuLP drops
    them, so no term of the objective has a zero coefficient); the table
    [shipping_costs] holds the shipping coefficients, zeros included. *)
Theorem objective_function
    (sin cos acos : float -> float) (instance : Instance) (w w' : World)
    (self : Model) :
  Model_init sin cos acos instance w = (Ok self, w') ->
  objective self =
    (lpSum (map (fun i => (Int (nth i (map fixed_cost (sites instance)) 0%Z), y_ i))
                (range (n_sites instance)))
     ++ lpSum (map (fun ij => (Float (shipping_cost instance
                                      * arc_distance sin cos acos instance ij)%float,
                               x_ (fst ij) (snd ij)))
                   (pairs (range (n_sites instance))
                          (range (n_customers instance)))))%list /\
  (forall c v, In (c, v) (objective self) -> is_zero_num c = false) /\
  (forall i j, (i < n_sites instance)%nat -> (j < n_customers instance)%nat ->
     dict_find (shipping_costs self) (i, j)
       = Some (shipping_cost instance * arc_distance sin cos acos instance (i, j))%float /\
     exists s c,
       nth_error (sites instance) i = Some s /\
       nth_error (customers instance) j = Some c /\
       fst (haversine_distance sin cos acos (s_loc s) (c_loc c) w)
         = Ok (arc_distance sin cos acos instance (i, j))).
Proof.
  intros H.
  destruct (Model_init_inv sin cos acos _ _ _ _ H) as (Hsc & Hd & Ho & _).
  assert (Hfind : forall ij,
            In ij (pairs (range (n_sites instance)) (range (n_customers instance))) ->
            dict_find (shipping_costs self) ij
              = Some (shipping_cost instance * arc_distance sin cos acos instance ij)%float).
  { intros ij Hin. rewrite Hsc.
    exact (dict_find_map
             (fun ij => (shipping_cost instance * arc_distance sin cos acos instance ij)%float)
             _ ij Hin). }
  split; [|split].
  - rewrite Ho. f_equal. f_equal. apply map_ext_in. intros ij Hin.
    unfold cost_of. rewrite (Hfind ij Hin). reflexivity.
  - intros c v Hin. rewrite Ho in Hin. unfold lpSum in Hin.
    apply in_app_or in Hin.
    destruct Hin as [Hin|Hin]; apply filter_In in Hin; destruct Hin as [_ Hnz];
      simpl in Hnz; apply negb_true_iff in Hnz; exact Hnz.
  - intros i j Hi Hj. split; [apply Hfind; apply in_pairs; assumption|].
    destruct (Hd i j Hi Hj) as (s & c & Hs & Hc & Hr).
    exists s, c. repeat split; try assumption.
    rewrite haversine_distance_fst. exact Hr.
Qed.

(** Scenario A: the site and the customer are at the same place, the
    shipping coefficient is 0.0 and the objective is [1000 * y_0] alone. *)
Lemma objective_function_witness :
  objective Examples.model_A = [(Int 1000, y_ 0)] /\
  dict_find (shipping_costs Examples.model_A) (0, 0)%nat = Some 0%float.
Proof.
  destruct (objective_function Examples.sin0 Examples.cos0 Examples.acos0
              Examples.scenario_A Examples.w0 _ Examples.model_A model_A_built)
    as (H & _ & Ht).
  split.
  - rewrite H. vm_compute. reflexivity.
  - destruct (Ht 0%nat 0%nat) as [Hf _]; [vm_compute; lia | vm_compute; lia |].
    rewrite Hf. vm_compute. reflexivity.
Defined.

(** X9: a constructor that returns found a row for every site index and
    every customer index: the two counts of the instance do not exceed the
    lengths of its frames.  With a count beyond its frame the constructor
    raises. *)
Theorem Model_init_counts
    (sin cos acos : float -> float) (instance : Instance) (w : World) :
  (forall self w', Model_init sin cos acos instance w = (Ok self, w') ->
     (n_sites instance <= List.length (sites instance))%nat /\
     (n_customers instance <= List.length (customers instance))%nat) /\
  ((List.length (sites instance) < n_sites instance)%nat \/
   (List.length (customers instance) < n_customers instance)%nat ->
   exists e w', Model_init sin cos acos instance w = (Raise e, w')).
Proof.
  assert (Hfit : forall self w', Model_init sin cos acos instance w = (Ok self, w') ->
     (n_sites instance <= List.length (sites instance))%nat /\
     (n_customers instance <= List.length (customers instance))%nat).
  { intros self w' H.
    destruct (Model_init_inv sin cos acos _ _ _ _ H) as (_ & _ & _ & _ & Hs & Hc & _).
    split.
    - destruct (n_sites instance) as [|n]; [lia|]. specialize (Hs n). lia.
    - destruct (n_customers instance) as [|n]; [lia|]. specialize (Hc n). lia. }
  split; [exact Hfit|].
  intros Hbad.
  destruct (Model_init sin cos acos instance w) as [[self|e] w'] eqn:E.
  - destruct (Hfit self w' eq_refl). lia.
  - exists e, w'. reflexivity.
Qed.

(** An instance that announces two sites but holds one row: the constructor
    raises [KeyError] for the missing row. *)
Lemma Model_init_counts_witness :
  fst (Model_init Examples.sin0 Examples.cos0 Examples.acos0
         (Instance_init 1 (customers Examples.scenario_A)
                        2 (sites Examples.scenario_A) 1%float)
         Examples.w0) = Raise (KeyError "1").
Proof.
  destruct (Model_init_counts Examples.sin0 Examples.cos0 Examples.acos0
              (Instance_init 1 (customers Examples.scenario_A)
                             2 (sites Examples.scenario_A) 1%float)
              Examples.w0) as [_ H].
  destruct H as (e & w' & E); [left; vm_compute; lia|].
  rewrite E. vm_compute in E. inversion E. reflexivity.
Defined.

(** *** Model.__init__ and haversine_distance: the calls they make *)

Definition is_libm_call (e : event) : Prop :=
  match e with
  | LibmCall _ _ => True
  | SolverCall _ => False
  end.

(** The world moved on by calls of the math library only. *)
Definition libm_only (w1 w2 : World) : Prop :=
  next_oid w2 = next_oid w1 /\ rng w2 = rng w1 /\
  exists t, trace w2 = (trace w1 ++ t)%list /\ Forall is_libm_call t.

Lemma libm_only_refl w : libm_only w w.
Proof.
  repeat split. exists []. split; [rewrite app_nil_r; reflexivity | constructor].
Qed.

Lemma libm_only_trans w1 w2 w3 : libm_only w1 w2 -> libm_only w2 w3 -> libm_only w1 w3.
Proof.
  intros (Ho1 & Hr1 & t1 & Ht1 & Hf1) (Ho2 & Hr2 & t2 & Ht2 & Hf2).
  repeat split; [congruence | congruence |].
  exists (t1 ++ t2)%list. split.
  - rewrite Ht2, Ht1, app_assoc. reflexivity.
  - apply Forall_app. split; assumption.
Qed.

Lemma keeps_math_1 name f x : keeps libm_only (math_1 name f x).
Proof.
  intros w. rewrite math_1_run. simpl. repeat split.
  exists [LibmCall name x]. split; [reflexivity|]. constructor; [exact I | constructor].
Qed.

Lemma keeps_haversine_distance sin cos acos self other :
  keeps libm_only (haversine_distance sin cos acos self other).
Proof.
  unfold haversine_distance, cosine_law, distance_of_cosine, math_sin, math_cos, math_acos.
  cbv zeta.
  repeat first
    [ exact libm_only_refl | exact libm_only_trans
    | match goal with |- forall _, _ => intro end
    | match goal with |- keeps _ (if ?c then _ else _) => destruct c end
    | apply keeps_math_1 | apply keeps_ret | apply keeps_raise | apply keeps_bind ].
Qed.

(** X10: building the model, whether it succeeds or raises, only calls the
    math library: the solver backend is not called, no object is created and
    no random number is drawn. *)
Theorem Model_init_calls_only_libm
    (sin cos acos : float -> float) (instance : Instance) (w : World) :
  next_oid (snd (Model_init sin cos acos instance w)) = next_oid w /\
  rng (snd (Model_init sin cos acos instance w)) = rng w /\
  exists t,
    trace (snd (Model_init sin cos acos instance w)) = (trace w ++ t)%list /\
    Forall is_libm_call t.
Proof.
  assert (H : keeps libm_only (Model_init sin cos acos instance)).
  { unfold Model_init. cbv zeta.
    repeat first
      [ exact libm_only_refl | exact libm_only_trans
      | match goal with |- forall _, _ => intro end
      | apply keeps_haversine_distance
      | apply keeps_ret | apply keeps_raise | apply keeps_loc_ | apply keeps_dict_get
      | apply keeps_mapM | apply keeps_bind ]. }
  exact (H w).
Qed.

(** *** Model.__init__: when it returns *)

Lemma fst_Ok_run {A} (m : M A) w a :
  fst (m w) = Ok a -> exists w', m w = (Ok a, w').
Proof. destruct (m w) as [r w']. simpl. intros ->. exists w'. reflexivity. Qed.

Lemma loc_found {A} (frame : list A) i w :
  (i < List.length frame)%nat -> exists a, loc_ frame i w = (Ok a, w).
Proof.
  intros Hi. unfold loc_.
  destruct (nth_error frame i) as [a|] eqn:E; [exists a; reflexivity|].
  apply nth_error_None in E. lia.
Qed.

Lemma dict_find_key {V} (d : list ((nat * nat) * V)) k :
  In k (map fst d) -> exists v, dict_find d k = Some v.
Proof.
  induction d as [|[k' v'] d IH]; simpl; [intros []|].
  intros Hin. destruct ((fst k' =? fst k)%nat && (snd k' =? snd k)%nat) eqn:E.
  - exists v'. reflexivity.
  - destruct Hin as [->|Hin]; [|exact (IH Hin)].
    rewrite !Nat.eqb_refl in E. discriminate E.
Qed.

(** A comprehension that pairs each key with a value lists the keys. *)
Lemma mapM_keys {A V} (f : A -> M (A * V)) l :
  (forall a w b w', f a w = (Ok b, w') -> fst b = a) ->
  forall w bs w', mapM f l w = (Ok bs, w') -> map fst bs = l.
Proof.
  intros Hf w bs w' H. apply mapM_Ok_Forall2 in H.
  induction H as [|a b l bs (w1 & w2 & Hab) _ IH]; [reflexivity|].
  simpl. rewrite (Hf _ _ _ _ Hab), IH. reflexivity.
Qed.

Lemma Model_init_succeeds
    (sin cos acos : float -> float) (instance : Instance) (w : World) :
  (n_sites instance <= List.length (sites instance))%nat ->
  (n_customers instance <= List.length (customers instance))%nat ->
  (forall i j s c,
     (i < n_sites instance)%nat -> (j < n_customers instance)%nat ->
     nth_error (sites instance) i = Some s ->
     nth_error (customers instance) j = Some c ->
     exists d, haversine_result sin cos acos (s_loc s) (c_loc c) = Ok d) ->
  exists self w', Model_init sin cos acos instance w = (Ok self, w').
Proof.
  intros Hns Hnc Hdist. unfold Model_init. cbv zeta.
  (* the table of shipping costs *)
  destruct (mapM_succeeds
              (fun ij =>
                 s <- loc_ (sites instance) (fst ij) ;;
                 c <- loc_ (customers instance) (snd ij) ;;
                 d <- haversine_distance sin cos acos (s_loc s) (c_loc c) ;;
                 ret (ij, (shipping_cost instance * d)%float))
              (pairs (range (n_sites instance)) (range (n_customers instance))))
    with (w := w) as (sc & w1 & Hsc).
  { intros [i j] Hin w0. apply in_pairs_iff in Hin. destruct Hin as [Hi Hj]. simpl.
    destruct (loc_found (sites instance) i w0) as [s Hs]; [lia|].
    destruct (loc_found (customers instance) j w0) as [c Hc]; [lia|].
    pose proof (proj1 (loc_Ok _ _ _ _ _ Hs)) as Hs'.
    pose proof (proj1 (loc_Ok _ _ _ _ _ Hc)) as Hc'.
    destruct (Hdist i j s c Hi Hj Hs' Hc') as [d Hd].
    rewrite <- (haversine_distance_fst sin cos acos _ _ w0) in Hd.
    apply fst_Ok_run in Hd. destruct Hd as [w2 Hd].
    exists ((i, j), (shipping_cost instance * d)%float), w2.
    unfold bind. rewrite Hs, Hc, Hd. reflexivity. }
  rewrite (bind_Ok_l _ _ _ _ _ Hsc).
  assert (Hkeys : map fst sc
                  = pairs (range (n_sites instance)) (range (n_customers instance))).
  { eapply mapM_keys; [|exact Hsc].
    intros ij wa b wb Hb.
    inv_bind Hb as s wc Hs. inv_bind Hb as c wd Hc. inv_bind Hb as d we Hd.
    apply ret_Ok in Hb. destruct Hb as [<- _]. reflexivity. }
  (* the fixed-cost terms *)
  destruct (mapM_succeeds
              (fun i => f <- loc_ (map fixed_cost (sites instance)) i ;; ret (Int f, y_ i))
              (range (n_sites instance)))
    with (w := w1) as (ft & w2 & Hft).
  { intros i Hin w0. apply in_seq in Hin.
    destruct (loc_found (map fixed_cost (sites instance)) i w0) as [f Hf];
      [rewrite length_map; lia|].
    exists (Int f, y_ i), w0. unfold bind. rewrite Hf. reflexivity. }
  rewrite (bind_Ok_l _ _ _ _ _ Hft).
  (* the shipping terms *)
  destruct (mapM_succeeds
              (fun ij => c <- dict_get sc ij ;; ret (Float c, x_ (fst ij) (snd ij)))
              (pairs (range (n_sites instance)) (range (n_customers instance))))
    with (w := w2) as (st & w3 & Hst).
  { intros ij Hin w0. rewrite <- Hkeys in Hin.
    destruct (dict_find_key sc ij Hin) as [c Hc].
    exists (Float c, x_ (fst ij) (snd ij)), w0.
    unfold bind. rewrite (dict_get_found _ _ w0 _ Hc). reflexivity. }
  rewrite (bind_Ok_l _ _ _ _ _ Hst).
  (* the demand constraints *)
  destruct (mapM_succeeds
              (fun j =>
                 c <- loc_ (customers instance) j ;;
                 ret {| name := "demand_" ++ str_nat j;
                        lhs := map (fun i => x_ i j) (range (n_sites instance));
                        sense := LpConstraintGE;
                        rhs := Constant (demand c) |})
              (range (n_customers instance)))
    with (w := w3) as (dc & w4 & Hdc).
  { intros j Hin w0. apply in_seq in Hin.
    destruct (loc_found (customers instance) j w0) as [c Hc]; [lia|].
    eexists. exists w0. unfold bind. rewrite Hc. reflexivity. }
  rewrite (bind_Ok_l _ _ _ _ _ Hdc).
  (* the capacity constraints *)
  destruct (mapM_succeeds
              (fun i =>
                 cap <- loc_ (map capacity (sites instance)) i ;;
                 ret {| name := "capacity_" ++ str_nat i;
                        lhs := map (fun j => x_ i j) (range (n_customers instance));
                        sense := LpConstraintLE;
                        rhs := Times (Z.min cap (int64_sum (map demand (customers instance))))
                                     (y_ i) |})
              (range (n_sites instance)))
    with (w := w4) as (cc & w5 & Hcc).
  { intros i Hin w0. apply in_seq in Hin.
    destruct (loc_found (map capacity (sites instance)) i w0) as [cap Hcap];
      [rewrite length_map; lia|].
    eexists. exists w0. unfold bind. rewrite Hcap. reflexivity. }
  rewrite (bind_Ok_l _ _ _ _ _ Hcc).
  eexists. eexists. reflexivity.
Qed.

(** X11: the constructor returns a model whenever the two counts of the
    instance fit its frames and [haversine_distance] returns a number for
    every site and customer.  The model it returns holds the instance, has
    the status [LpStatusNotSolved] and no variable value, and one constraint
    per customer and per site. *)
Theorem Model_init_returns
    (sin cos acos : float -> float) (instance : Instance) (w : World) :
  (n_sites instance <= List.length (sites instance))%nat ->
  (n_customers instance <= List.length (customers instance))%nat ->
  (forall i j s c,
     (i < n_sites instance)%nat -> (j < n_customers instance)%nat ->
     nth_error (sites instance) i = Some s ->
     nth_error (customers instance) j = Some c ->
     exists d, haversine_result sin cos acos (s_loc s) (c_loc c) = Ok d) ->
  exists self w',
    Model_init sin cos acos instance w = (Ok self, w') /\
    data self = instance /\ status self = LpStatusNotSolved /\
    (forall i, y_varValue self i = None) /\
    (forall i j, x_varValue self i j = None) /\
    List.length (constraints self) = (n_customers instance + n_sites instance)%nat.
Proof.
  intros Hns Hnc Hdist.
  destruct (Model_init_succeeds sin cos acos instance w Hns Hnc Hdist) as (self & w' & H).
  exists self, w'. split; [exact H|].
  destruct (Model_init_inv sin cos acos _ _ _ _ H) as (_ & _ & _ & Hcs & _).
  destruct (Model_init_Ok _ _ _ _ _ _ _ H) as (Hdata & _ & _ & _ & _ & Hst & _).
  split; [exact Hdata|]. split; [exact Hst|].
  assert (Hvals : (forall i, y_varValue self i = None) /\
                  (forall i j, x_varValue self i j = None)).
  { unfold Model_init in H.
    inv_bind H as sc w1 Hsc. inv_bind H as ft w2 Hft. inv_bind H as st w3 Hst'.
    inv_bind H as dc w4 Hdc. inv_bind H as cc w5 Hcc.
    apply ret_Ok in H. destruct H as [<- _]. split; reflexivity. }
  destruct Hvals as [Hy Hx]. split; [exact Hy|]. split; [exact Hx|].
  rewrite Hcs, length_app, !length_map. unfold range. rewrite !length_seq. reflexivity.
Qed.

Lemma Model_init_returns_witness :
  exists self w',
    Model_init Examples.sin0 Examples.cos0 Examples.acos0
      Examples.scenario_A Examples.w0 = (Ok self, w').
Proof.
  destruct (Model_init_returns Examples.sin0 Examples.cos0 Examples.acos0
              Examples.scenario_A Examples.w0) as (self & w' & H & _);
    [vm_compute; lia | vm_compute; lia | | exists self, w'; exact H].
  intros i j s c Hi Hj Hs Hc.
  assert (i = 0%nat) by (vm_compute in Hi; lia).
  assert (j = 0%nat) by (vm_compute in Hj; lia). subst.
  vm_compute in Hs, Hc. inversion Hs; inversion Hc; subst.
  exists 0%float. vm_compute. reflexivity.
Defined.

(** *** Model, solve, get_solution: the three steps together *)

(** X12: on a model that the constructor built and [solve] ran, the
    extraction returns a solution whenever the solver left a value in every
    site variable and every flow variable, and it calls neither the solver
    nor the math library.  The solution carries the status of the model and
    the model's instance object, in whose two frames the call has written
    the column [volume], computed from the flows of the solution; the counts
    and the shipping cost of the instance are untouched. *)
Theorem get_solution_returns
    (sin cos acos : float -> float) (backend : Model -> option Z -> SolverReply)
    (instance : Instance) (timeout_sec : Z) (w w1 w2 : World)
    (self self' : Model) (r : Z * string) :
  Model_init sin cos acos instance w = (Ok self, w1) ->
  solve backend self timeout_sec w1 = (Ok (r, self'), w2) ->
  (forall i, (i < n_sites instance)%nat -> y_varValue self' i <> None) ->
  (forall i j, (i < n_sites instance)%nat -> (j < n_customers instance)%nat ->
               x_varValue self' i j <> None) ->
  exists sol,
    get_solution self' w2 = (Ok sol, w2) /\
    FacilityLocationModel.instance sol = with_volumes instance (xs sol) /\
    n_sites (FacilityLocationModel.instance sol) = n_sites instance /\
    n_customers (FacilityLocationModel.instance sol) = n_customers instance /\
    shipping_cost (FacilityLocationModel.instance sol) = shipping_cost instance /\
    sol_status sol = status self'.
Proof.
  intros Hinit Hsolve Hy Hx.
  destruct (Model_init_inv sin cos acos _ _ _ _ Hinit)
    as (_ & _ & _ & _ & Hs & Hc & Hfind).
  destruct (Model_init_Ok _ _ _ _ _ _ _ Hinit) as (Hdata & _ & _ & Hfc & _).
  destruct (solve_static _ _ _ _ _ _ _ Hsolve) as (Hd' & Hfc' & Hsc').
  rewrite Hdata in Hd'.
  unfold get_solution. rewrite Hd', Hfc', Hsc', Hfc.
  unfold bind at 1. rewrite above_eps_all_Some
    by (intros i Hi; apply in_seq in Hi; apply Hy; lia).
  unfold bind at 1. rewrite above_eps_all_Some
    by (intros [i j] Hij; apply in_pairs_iff in Hij; apply Hx; tauto).
  set (yval := selected (y_varValue self') (range (n_sites instance))).
  set (xval := selected (fun ij => x_varValue self' (fst ij) (snd ij))
                 (pairs (range (n_sites instance)) (range (n_customers instance)))).
  assert (Hxin : forall e, In e xval ->
            (fst (fst e) < n_sites instance)%nat /\ (snd (fst e) < n_customers instance)%nat).
  { intros [[i j] v] He. apply in_selected in He. destruct He as [He _].
    apply in_pairs_iff in He. exact He. }
  assert (Hyin : forall e, In e yval -> (fst e < n_sites instance)%nat).
  { intros [i v] He. apply in_selected in He. destruct He as [He _].
    apply in_seq in He. simpl. lia. }
  cbv zeta.
  set (written := with_volumes instance xval).
  destruct (mapM_succeeds
              (fun e => s <- loc_ (sites written) (fst (fst e)) ;;
                        c <- loc_ (customers written) (snd (fst e)) ;;
                        ret {| from := fst (fst e); to := snd (fst e); units := snd e;
                               from_loc := s_loc s; from_lat := lat (s_loc s);
                               from_lon := lon (s_loc s);
                               to_loc := c_loc c; to_lat := lat (c_loc c);
                               to_lon := lon (c_loc c) |})
              xval) with (w := w2) as (fl & w3 & Hfl).
  { intros e He w0. destruct (Hxin e He) as [Hi Hj].
    destruct (loc_found (sites written) (fst (fst e)) w0) as [s Hs0];
      [unfold written; simpl; rewrite length_set_sites_volume; apply Hs; exact Hi|].
    destruct (loc_found (customers written) (snd (fst e)) w0) as [c Hc0];
      [unfold written; simpl; rewrite length_set_customers_volume; apply Hc; exact Hj|].
    eexists. exists w0. unfold bind. rewrite Hs0, Hc0. reflexivity. }
  destruct (mapM_succeeds
              (fun e => f <- loc_ (map fixed_cost (sites instance)) (fst e) ;;
                        ret (float_of_int f * snd e)%float)
              yval) with (w := w3) as (ft & w4 & Hft).
  { intros e He w0.
    destruct (loc_found (map fixed_cost (sites instance)) (fst e) w0) as [f Hf];
      [rewrite length_map; apply Hs; exact (Hyin e He)|].
    eexists. exists w0. unfold bind. rewrite Hf. reflexivity. }
  destruct (mapM_succeeds
              (fun e => c <- dict_get (shipping_costs self) (fst e) ;;
                        ret (c * snd e)%float)
              xval) with (w := w4) as (st & w5 & Hst).
  { intros [[i j] v] He w0. destruct (Hxin _ He) as [Hi Hj]. simpl in Hi, Hj |- *.
    destruct (dict_find (shipping_costs self) (i, j)) as [c|] eqn:E;
      [|exfalso; exact (Hfind i j Hi Hj E)].
    eexists. exists w0. unfold bind. rewrite (dict_get_found _ _ w0 _ E). reflexivity. }
  rewrite (bind_Ok_l _ _ _ _ _ Hfl), (bind_Ok_l _ _ _ _ _ Hft), (bind_Ok_l _ _ _ _ _ Hst).
  assert (K : keeps (fun wa wb => wb = wa)
                (mapM (fun e => s <- loc_ (sites written) (fst (fst e)) ;;
                        c <- loc_ (customers written) (snd (fst e)) ;;
                        ret {| from := fst (fst e); to := snd (fst e); units := snd e;
                               from_loc := s_loc s; from_lat := lat (s_loc s);
                               from_lon := lon (s_loc s);
                               to_loc := c_loc c; to_lat := lat (c_loc c);
                               to_lon := lon (c_loc c) |}) xval))
    by keeps_auto same_world_refl same_world_trans.
  assert (K2 : keeps (fun wa wb => wb = wa)
                 (mapM (fun e => f <- loc_ (map fixed_cost (sites instance)) (fst e) ;;
                        ret (float_of_int f * snd e)%float) yval))
    by keeps_auto same_world_refl same_world_trans.
  assert (K3 : keeps (fun wa wb => wb = wa)
                 (mapM (fun e => c <- dict_get (shipping_costs self) (fst e) ;;
                        ret (c * snd e)%float) xval))
    by keeps_auto same_world_refl same_world_trans.
  specialize (K w2). rewrite Hfl in K. simpl in K.
  specialize (K2 w3). rewrite Hft in K2. simpl in K2.
  specialize (K3 w4). rewrite Hst in K3. simpl in K3.
  subst w5 w4 w3.
  eexists. split; [reflexivity|]. repeat split.
Qed.

(** Scenario A, built, solved and read: the site ships 10 units and the
    customer receives 10. *)
Lemma get_solution_returns_witness :
  exists r self' w2 sol,
    solve Examples.backend_A Examples.model_A 120
      (snd (Model_init Examples.sin0 Examples.cos0 Examples.acos0
              Examples.scenario_A Examples.w0)) = (Ok (r, self'), w2) /\
    get_solution self' w2 = (Ok sol, w2) /\
    sol_status sol = status self' /\
    map s_volume (sites (instance sol)) = [Some 10%float] /\
    map c_volume (customers (instance sol)) = [Some 10%float].
Proof.
  rewrite model_A_built. simpl snd.
  match goal with
  | |- context [solve ?b ?m ?t ?w] =>
      destruct (solve b m t w) as [[[r self']|e] w2] eqn:E;
        [|vm_compute in E; discriminate E]
  end.
  destruct (get_solution_returns _ _ _ _ _ _ _ _ _ _ _ _ model_A_built E)
    as (sol & Hsol & Hinst & _ & _ & _ & Hst).
  - intros i _. vm_compute in E. inversion E. discriminate.
  - intros i j _ _. vm_compute in E. inversion E. discriminate.
  - exists r, self', w2, sol. split; [reflexivity|]. split; [exact Hsol|].
    split; [exact Hst|].
    rewrite Hinst. vm_compute in E. inversion E; subst. clear E.
    vm_compute in Hsol. inversion Hsol; subst. clear Hsol.
    split; vm_compute; reflexivity.
Defined.

(** *** Instance.generate: the instance it returns *)

(** The location objects [make_locs] returns for the rows of a frame when
    the next free identity is [n]. *)
Fixpoint mk_locs (n : nat) (rows : list ZipRow) : list Loc :=
  match rows with
  | [] => []
  | r :: rows' => {| oid := n; lat := zip_lat r; lon := zip_lon r |} :: mk_locs (S n) rows'
  end.

Lemma mapM_Loc_init_run frame :
  forall w,
    mapM (fun r => Loc_init (zip_lat r) (zip_lon r)) frame w =
      (Ok (mk_locs (next_oid w) frame),
       {| trace := trace w; next_oid := next_oid w + List.length frame; rng := rng w |}).
Proof.
  induction frame as [|r frame IH]; intros w; simpl.
  - unfold ret. rewrite Nat.add_0_r. destruct w; reflexivity.
  - unfold bind, Loc_init, fresh_oid, ret. simpl.
    unfold bind in IH. rewrite IH. simpl.
    repeat f_equal. lia.
Qed.

(** [make_locs] takes one identity per row, and one for a frame without
    rows. *)
Lemma make_locs_run frame :
  forall w,
    make_locs frame w =
      (Ok (mk_locs (next_oid w) frame),
       {| trace := trace w;
          next_oid := next_oid w + Nat.max 1 (List.length frame);
          rng := rng w |}).
Proof.
  intros w. destruct frame as [|r frame].
  - unfold make_locs, bind, Loc_init, fresh_oid, ret. simpl.
    repeat f_equal. lia.
  - unfold make_locs. rewrite mapM_Loc_init_run.
    replace (Nat.max 1 (List.length (r :: frame))) with (List.length (r :: frame))
      by (simpl; lia).
    reflexivity.
Qed.

Lemma length_mk_locs rows : forall n, List.length (mk_locs n rows) = List.length rows.
Proof. induction rows as [|r rows IH]; intros n; simpl; [reflexivity | rewrite IH; reflexivity]. Qed.

(** A row and the object made for it: same coordinates, and an identity in
    the block the frame was given. *)
Lemma in_combine_mk_locs {A} (g : A -> ZipRow) (xs : list A) :
  forall n x l, In (x, l) (combine xs (mk_locs n (map g xs))) ->
  lat l = zip_lat (g x) /\ lon l = zip_lon (g x) /\
  (n <= oid l < n + List.length xs)%nat.
Proof.
  induction xs as [|x0 xs IH]; intros n x l Hin; simpl in Hin; [destruct Hin|].
  destruct Hin as [Hin|Hin].
  - inversion Hin; subst. simpl. repeat split; lia.
  - destruct (IH _ _ _ Hin) as (H1 & H2 & H3). simpl. repeat split; try assumption; lia.
Qed.

Lemma get_random_us_locs_Ok usa_zips sample n w rows w' :
  get_random_us_locs usa_zips sample n w = (Ok rows, w') ->
  next_oid w' = next_oid w /\ trace w' = trace w.
Proof.
  unfold get_random_us_locs. destruct (_ <? _)%nat; [discriminate|].
  unfold bind, take_rng, ret. simpl. intros H. inversion H. split; reflexivity.
Qed.

Lemma randint_Ok entropy low high size w l w' :
  randint entropy low high size w = (Ok l, w') ->
  List.length l = size /\ (forall z, In z l -> (low <= z < high)%Z) /\
  next_oid w' = next_oid w /\ trace w' = trace w.
Proof.
  unfold randint.
  destruct (size =? 0)%nat eqn:E0.
  { apply Nat.eqb_eq in E0. intros H. apply ret_Ok in H. destruct H as [<- <-].
    subst size. split; [reflexivity|]. split; [intros z []|]. split; reflexivity. }
  destruct (low <? - 2 ^ 63)%Z; [discriminate|].
  destruct (2 ^ 63 - 1 <? high - 1)%Z; [discriminate|].
  destruct (high - 1 <? low)%Z eqn:E; [discriminate|].
  apply Z.ltb_ge in E.
  unfold bind, take_rng, ret. simpl. intros H. inversion H; subst. clear H. simpl.
  split; [rewrite length_map; unfold range; apply length_seq|].
  split; [|split; reflexivity].
  intros z Hz. apply in_map_iff in Hz. destruct Hz as (k & <- & _).
  pose proof (Z.mod_pos_bound (entropy (rng w + k)%nat) (high - low)). lia.
Qed.

Lemma set_column_Ok {A B C} (f : A -> B -> C) frame values w l w' :
  set_column f frame values w = (Ok l, w') ->
  l = map (fun p => f (fst p) (snd p)) (combine frame values) /\
  List.length values = List.length frame /\ w' = w.
Proof.
  unfold set_column. destruct (_ =? _)%nat eqn:E; [|discriminate].
  apply Nat.eqb_eq in E. intros H. apply ret_Ok in H. destruct H as [<- <-].
  repeat split. exact E.
Qed.

Section GeneratedInstance.

Variable usa_zips : list ZipRow.
Variable sample : nat -> nat -> list ZipRow -> list ZipRow.
Variable entropy : nat -> Z.

Opaque Nat.max.

(** The frames and columns behind an instance that [generate] returned. *)
Lemma generate_inv nc dr ns cr fr sc w inst w' :
  generate usa_zips sample entropy nc dr ns cr fr sc w = (Ok inst, w') ->
  exists (cs : list ZipRow) (ds : list Z) (rows : list ((ZipRow * Z) * Z)),
    List.length cs = nc /\ List.length ds = nc /\
    (forall d, In d ds -> (fst dr <= d < snd dr)%Z) /\
    List.length rows = ns /\
    (forall r, In r rows ->
       (fst cr <= snd r < snd cr)%Z /\
       ((fst fr = snd fr /\ snd (fst r) = fst fr) \/
        (fst fr <= snd (fst r) < snd fr)%Z)) /\
    customers inst =
      map (fun p => {| c_lat := zip_lat (fst (fst p)); c_lon := zip_lon (fst (fst p));
                       c_loc := snd (fst p); demand := snd p;
                       c_volume := None |})
          (combine (combine cs (mk_locs (next_oid w) cs)) ds) /\
    sites inst =
      map (fun p => {| s_lat := zip_lat (fst (fst (fst p)));
                       s_lon := zip_lon (fst (fst (fst p)));
                       fixed_cost := snd (fst (fst p));
                       capacity := snd (fst p);
                       s_loc := snd p;
                       s_volume := None |})
          (combine rows (mk_locs (next_oid w + Nat.max 1 nc)
                                 (map (fun r => fst (fst r)) rows))) /\
    n_customers inst = nc /\ n_sites inst = ns /\ shipping_cost inst = sc /\
    next_oid w' = (next_oid w + Nat.max 1 nc + Nat.max 1 ns)%nat /\
    trace w' = trace w.
Proof.
  unfold generate. intros E.
  inv_bind E as cs wa Hcs. inv_bind E as ls wb Hls. inv_bind E as ds wc Hds.
  inv_bind E as cs' wd Hcs'. inv_bind E as ss we Hss. inv_bind E as fs wf Hfs.
  inv_bind E as caps wg Hcaps. inv_bind E as ss' wh Hss'. inv_bind E as ls' wi Hls'.
  apply ret_Ok in E. destruct E as [<- <-].
  destruct (get_random_us_locs_Ok _ _ _ _ _ _ Hcs) as [Hoa Hta].
  rewrite make_locs_run in Hls. inversion Hls; subst ls wb. clear Hls.
  destruct (randint_Ok _ _ _ _ _ _ _ Hds) as (Hlds & Hrds & Hoc & Htc).
  destruct (set_column_Ok _ _ _ _ _ _ Hcs') as (-> & Hlcs & ->).
  rewrite length_combine, length_mk_locs, Nat.min_id in Hlcs.
  destruct (get_random_us_locs_Ok _ _ _ _ _ _ Hss) as [Hoe Hte].
  assert (Hfs' : List.length fs = List.length ss /\
                 next_oid wf = next_oid we /\ trace wf = trace we /\
                 forall f, In f fs ->
                   (fst fr = snd fr /\ f = fst fr) \/ (fst fr <= f < snd fr)%Z).
  { destruct (fst fr =? snd fr)%Z eqn:Ef.
    - apply ret_Ok in Hfs. destruct Hfs as [<- <-]. apply Z.eqb_eq in Ef.
      rewrite length_map. repeat split.
      intros f Hf. apply in_map_iff in Hf. destruct Hf as (r & <- & _). left. auto.
    - inv_bind Hfs as vs wv Hvs.
      destruct (randint_Ok _ _ _ _ _ _ _ Hvs) as (_ & Hrv & Hov & Htv).
      destruct (set_column_Ok _ _ _ _ _ _ Hfs) as (-> & Hl & ->).
      rewrite length_map, length_combine, Hl, Nat.min_id.
      split; [reflexivity|]. split; [exact Hov|]. split; [exact Htv|].
      intros f Hf. apply in_map_iff in Hf. destruct Hf as ([r v] & <- & Hin).
      right. apply Hrv. simpl. exact (in_combine_r _ _ _ _ Hin). }
  destruct Hfs' as (Hlfs & Hof & Htf & Hrfs).
  destruct (randint_Ok _ _ _ _ _ _ _ Hcaps) as (Hlcaps & Hrcaps & Hog & Htg).
  destruct (set_column_Ok _ _ _ _ _ _ Hss') as (-> & Hlss & ->).
  rewrite length_combine, Hlfs, Nat.min_id in Hlss.
  rewrite make_locs_run in Hls'. inversion Hls'; subst ls' wi. clear Hls'.
  simpl.
  exists cs, ds,
    (map (fun p : (ZipRow * Z) * Z => (fst p, snd p)) (combine (combine ss fs) caps)).
  assert (Hlen_rows :
    List.length (map (fun p : (ZipRow * Z) * Z => (fst p, snd p))
                     (combine (combine ss fs) caps)) = ns).
  { rewrite length_map, !length_combine, Hlfs, Nat.min_id. lia. }
  rewrite Hlen_rows.
  split; [lia|]. split; [exact Hlds|]. split; [exact Hrds|].
  split; [reflexivity|]. split; [|split; [|split]].
  - intros r Hr. apply in_map_iff in Hr. destruct Hr as ([[z f] c] & <- & Hin). simpl.
    split.
    + apply Hrcaps. exact (in_combine_r _ _ _ _ Hin).
    + apply Hrfs. apply in_combine_l in Hin. exact (in_combine_r _ _ _ _ Hin).
  - rewrite Hoa. reflexivity.
  - simpl in Hoc. replace (next_oid wg) with (next_oid w + Nat.max 1 nc)%nat by lia.
    reflexivity.
  - simpl in Hoc, Htc. repeat split; try reflexivity.
    + simpl. rewrite !length_map, !length_combine in Hlen_rows.
      rewrite !length_map, !length_combine. lia.
    + simpl. congruence.
Qed.

Transparent Nat.max.

End GeneratedInstance.

Lemma generate_lengths usa_zips sample entropy nc dr ns cr fr sc w w' inst :
  generate usa_zips sample entropy nc dr ns cr fr sc w = (Ok inst, w') ->
  (n_customers inst <= List.length (customers inst))%nat /\
  (n_sites inst <= List.length (sites inst))%nat.
Proof.
  intros H.
  destruct (generate_inv _ _ _ _ _ _ _ _ _ _ _ _ H)
    as (cs & ds & rows & Hcs & Hds & _ & Hrows & _ & Hc & Hs & Hnc & Hns & _).
  rewrite Hc, Hs, !length_map, !length_combine, !length_mk_locs, length_map. lia.
Qed.

(** X13: an instance that [generate] returned has exactly [n_customers]
    customer rows and [n_sites] site rows, and records the two counts and the
    shipping cost it was given. *)
Theorem generate_sizes
    (usa_zips : list ZipRow) (sample : nat -> nat -> list ZipRow -> list ZipRow)
    (entropy : nat -> Z)
    (nc : nat) (demand_range : Z * Z) (ns : nat)
    (capacity_range fixed_cost_range : Z * Z) (shipping : float)
    (w w' : World) (inst : Instance) :
  generate usa_zips sample entropy nc demand_range ns capacity_range
    fixed_cost_range shipping w = (Ok inst, w') ->
  n_customers inst = nc /\ List.length (customers inst) = nc /\
  n_sites inst = ns /\ List.length (sites inst) = ns /\
  shipping_cost inst = shipping.
Proof.
  intros H.
  destruct (generate_inv _ _ _ _ _ _ _ _ _ _ _ _ H)
    as (cs & ds & rows & Hcs & Hds & _ & Hrows & _ & Hc & Hs & Hnc & Hns & Hsc & _).
  rewrite Hc, Hs, !length_map, !length_combine, !length_mk_locs, length_map.
  repeat split; try assumption; lia.
Qed.

Lemma generate_sizes_witness :
  exists inst w',
    generate Examples.zips Examples.first_rows Examples.counter
      1 (20, 80)%Z 2 (1000, 4000)%Z (5, 5)%Z 1%float Examples.w0 = (Ok inst, w') /\
    List.length (customers inst) = 1%nat /\ List.length (sites inst) = 2%nat.
Proof.
  eexists. eexists. split; [vm_compute; reflexivity|].
  edestruct (generate_sizes Examples.zips Examples.first_rows Examples.counter
               1 (20, 80)%Z 2 (1000, 4000)%Z (5, 5)%Z 1%float Examples.w0)
    as (_ & H1 & _ & H2 & _); [vm_compute; reflexivity|].
  split; [exact H1 | exact H2].
Defined.

(** X14: in an instance that [generate] returned, every demand lies in the
    half-open demand range and every capacity in the half-open capacity
    range; every fixed cost lies in the half-open fixed-cost range, or is the
    constant of a range whose two ends are equal. *)
Theorem generate_ranges
    (usa_zips : list ZipRow) (sample : nat -> nat -> list ZipRow -> list ZipRow)
    (entropy : nat -> Z)
    (nc : nat) (demand_range : Z * Z) (ns : nat)
    (capacity_range fixed_cost_range : Z * Z) (shipping : float)
    (w w' : World) (inst : Instance) :
  generate usa_zips sample entropy nc demand_range ns capacity_range
    fixed_cost_range shipping w = (Ok inst, w') ->
  Forall (fun c => (fst demand_range <= demand c < snd demand_range)%Z)
         (customers inst) /\
  Forall (fun s =>
            (fst capacity_range <= capacity s < snd capacity_range)%Z /\
            ((fst fixed_cost_range = snd fixed_cost_range /\
              fixed_cost s = fst fixed_cost_range) \/
             (fst fixed_cost_range <= fixed_cost s < snd fixed_cost_range)%Z))
         (sites inst).
Proof.
  intros H.
  destruct (generate_inv _ _ _ _ _ _ _ _ _ _ _ _ H)
    as (cs & ds & rows & _ & _ & Hds & _ & Hrows & Hc & Hs & _).
  rewrite Hc, Hs. split; apply Forall_forall.
  - intros c Hin. apply in_map_iff in Hin. destruct Hin as ([p d] & <- & Hin). simpl.
    apply Hds. exact (in_combine_r _ _ _ _ Hin).
  - intros s Hin. apply in_map_iff in Hin. destruct Hin as ([r l] & <- & Hin). simpl.
    apply Hrows. exact (in_combine_l _ _ _ _ Hin).
Qed.

Lemma generate_ranges_witness :
  exists inst w',
    generate Examples.zips Examples.first_rows Examples.counter
      1 (20, 80)%Z 2 (1000, 4000)%Z (5, 5)%Z 1%float Examples.w0 = (Ok inst, w') /\
    Forall (fun c => (20 <= demand c < 80)%Z) (customers inst).
Proof.
  eexists. eexists. split; [vm_compute; reflexivity|].
  edestruct (generate_ranges Examples.zips Examples.first_rows Examples.counter
               1 (20, 80)%Z 2 (1000, 4000)%Z (5, 5)%Z 1%float Examples.w0)
    as (H1 & _); [vm_compute; reflexivity|].
  exact H1.
Defined.

(** X15: [generate] creates one new location object per customer and then
    one per site, each with an identity no object had before the call; for a
    frame without rows it creates one object that it drops (pandas calls the
    function once on a row of NaNs).  That makes
    [max(1, n_customers) + max(1, n_sites)] objects in all, and the log of
    collaborator calls is left alone.  So the location of a site and the
    location of a customer are never the same object, also when they are the
    same zip code, and [haversine_distance] between them does not take its
    shortcut. *)
Theorem generate_fresh_locations
    (usa_zips : list ZipRow) (sample : nat -> nat -> list ZipRow -> list ZipRow)
    (entropy : nat -> Z)
    (nc : nat) (demand_range : Z * Z) (ns : nat)
    (capacity_range fixed_cost_range : Z * Z) (shipping : float)
    (w w' : World) (inst : Instance) :
  generate usa_zips sample entropy nc demand_range ns capacity_range
    fixed_cost_range shipping w = (Ok inst, w') ->
  next_oid w' = (next_oid w + Nat.max 1 nc + Nat.max 1 ns)%nat /\
  trace w' = trace w /\
  forall c s, In c (customers inst) -> In s (sites inst) ->
    (next_oid w <= oid (c_loc c) < next_oid w + nc)%nat /\
    (next_oid w + nc <= oid (s_loc s) < next_oid w')%nat /\
    Loc_eq (s_loc s) (c_loc c) = false /\
    forall sin cos acos,
      haversine_result sin cos acos (s_loc s) (c_loc c) =
        rbind (cosine_law_result sin cos (s_loc s) (c_loc c))
              (distance_of_cosine_result acos (s_loc s) (c_loc c)).
Proof.
  intros H.
  destruct (generate_inv _ _ _ _ _ _ _ _ _ _ _ _ H)
    as (cs & ds & rows & Hlcs & _ & _ & Hlrows & _ & Hc & Hs & _ & _ & _ & Ho & Ht).
  split; [exact Ho|]. split; [exact Ht|].
  intros c s Hinc Hins.
  assert (Hnc : (0 < nc)%nat).
  { rewrite Hc in Hinc. apply in_map_iff in Hinc.
    destruct Hinc as ([[r l] d] & _ & Hin).
    apply in_combine_l in Hin. apply in_combine_l in Hin.
    destruct cs; [destruct Hin | simpl in Hlcs; lia]. }
  assert (Hns : (0 < ns)%nat).
  { rewrite Hs in Hins. apply in_map_iff in Hins. destruct Hins as ([r l] & _ & Hin).
    apply in_combine_l in Hin.
    destruct rows; [destruct Hin | simpl in Hlrows; lia]. }
  assert (Hco : (next_oid w <= oid (c_loc c) < next_oid w + nc)%nat).
  { rewrite Hc in Hinc. apply in_map_iff in Hinc. destruct Hinc as ([[r l] d] & <- & Hin).
    simpl. apply in_combine_l in Hin.
    rewrite <- (map_id cs) in Hin at 2.
    destruct (in_combine_mk_locs (fun r => r) cs _ _ _ Hin) as (_ & _ & Hb). lia. }
  assert (Hso : (next_oid w + nc <= oid (s_loc s) < next_oid w')%nat).
  { rewrite Hs in Hins. apply in_map_iff in Hins. destruct Hins as ([r l] & <- & Hin).
    simpl. destruct (in_combine_mk_locs _ rows _ _ _ Hin) as (_ & _ & Hb). lia. }
  assert (Hne : Loc_eq (s_loc s) (c_loc c) = false)
    by (unfold Loc_eq; apply Nat.eqb_neq; lia).
  repeat split; try lia; try exact Hne.
  intros sin cos acos. unfold haversine_result. rewrite Hne. reflexivity.
Qed.

(** One customer and two sites take three identities; no customer and two
    sites take three as well. *)
Lemma generate_fresh_locations_witness :
  (exists inst w',
     generate Examples.zips Examples.first_rows Examples.counter
       1 (20, 80)%Z 2 (1000, 4000)%Z (5, 5)%Z 1%float Examples.w0 = (Ok inst, w') /\
     next_oid w' = 7%nat /\ trace w' = []) /\
  (exists inst w',
     generate Examples.zips Examples.first_rows Examples.counter
       0 (20, 80)%Z 2 (1000, 4000)%Z (5, 5)%Z 1%float Examples.w0 = (Ok inst, w') /\
     customers inst = [] /\ next_oid w' = 7%nat).
Proof.
  split.
  - eexists. eexists. split; [vm_compute; reflexivity|].
    edestruct (generate_fresh_locations Examples.zips Examples.first_rows Examples.counter
                 1 (20, 80)%Z 2 (1000, 4000)%Z (5, 5)%Z 1%float Examples.w0)
      as (H1 & H2 & _); [vm_compute; reflexivity|].
    split; [exact H1 | exact H2].
  - eexists. eexists. split; [vm_compute; reflexivity|].
    edestruct (generate_fresh_locations Examples.zips Examples.first_rows Examples.counter
                 0 (20, 80)%Z 2 (1000, 4000)%Z (5, 5)%Z 1%float Examples.w0)
      as (H1 & _); [vm_compute; reflexivity|].
    split; [reflexivity | exact H1].
Defined.

(** X16: in an instance that [generate] returned, the location object of
    every customer row and of every site row carries the latitude and
    longitude of that row. *)
Theorem generate_location_coordinates
    (usa_zips : list ZipRow) (sample : nat -> nat -> list ZipRow -> list ZipRow)
    (entropy : nat -> Z)
    (nc : nat) (demand_range : Z * Z) (ns : nat)
    (capacity_range fixed_cost_range : Z * Z) (shipping : float)
    (w w' : World) (inst : Instance) :
  generate usa_zips sample entropy nc demand_range ns capacity_range
    fixed_cost_range shipping w = (Ok inst, w') ->
  Forall (fun c => lat (c_loc c) = c_lat c /\ lon (c_loc c) = c_lon c) (customers inst) /\
  Forall (fun s => lat (s_loc s) = s_lat s /\ lon (s_loc s) = s_lon s) (sites inst).
Proof.
  intros H.
  destruct (generate_inv _ _ _ _ _ _ _ _ _ _ _ _ H)
    as (cs & ds & rows & _ & _ & _ & _ & _ & Hc & Hs & _).
  rewrite Hc, Hs. split; apply Forall_forall.
  - intros c Hin. apply in_map_iff in Hin. destruct Hin as ([[r l] d] & <- & Hin).
    simpl. apply in_combine_l in Hin.
    rewrite <- (map_id cs) in Hin at 2.
    destruct (in_combine_mk_locs (fun r => r) cs _ _ _ Hin) as (H1 & H2 & _).
    split; assumption.
  - intros s Hin. apply in_map_iff in Hin. destruct Hin as ([r l] & <- & Hin).
    simpl. destruct (in_combine_mk_locs _ rows _ _ _ Hin) as (H1 & H2 & _).
    split; assumption.
Qed.

Lemma generate_location_coordinates_witness :
  exists inst w',
    generate Examples.zips Examples.first_rows Examples.counter
      1 (20, 80)%Z 2 (1000, 4000)%Z (5, 5)%Z 1%float Examples.w0 = (Ok inst, w') /\
    Forall (fun s => lat (s_loc s) = s_lat s /\ lon (s_loc s) = s_lon s) (sites inst).
Proof.
  eexists. eexists. split; [vm_compute; reflexivity|].
  edestruct (generate_location_coordinates Examples.zips Examples.first_rows
               Examples.counter
               1 (20, 80)%Z 2 (1000, 4000)%Z (5, 5)%Z 1%float Examples.w0)
    as (_ & H2); [vm_compute; reflexivity|].
  exact H2.
Defined.

(** X17: an instance that [generate] returned fits the constructor of the
    model: [Model(instance)] returns whenever [haversine_distance] returns a
    number for every site and customer of the instance; no row is missing. *)
Theorem Model_of_generated_instance
    (sin cos acos : float -> float)
    (usa_zips : list ZipRow) (sample : nat -> nat -> list ZipRow -> list ZipRow)
    (entropy : nat -> Z)
    (nc : nat) (demand_range : Z * Z) (ns : nat)
    (capacity_range fixed_cost_range : Z * Z) (shipping : float)
    (w w' : World) (inst : Instance) :
  generate usa_zips sample entropy nc demand_range ns capacity_range
    fixed_cost_range shipping w = (Ok inst, w') ->
  (forall s c, In s (sites inst) -> In c (customers inst) ->
     exists d, haversine_result sin cos acos (s_loc s) (c_loc c) = Ok d) ->
  exists self w'', Model_init sin cos acos inst w' = (Ok self, w'').
Proof.
  intros Hgen Hdist.
  destruct (generate_lengths _ _ _ _ _ _ _ _ _ _ _ _ Hgen) as (Hlc & Hls).
  apply Model_init_succeeds; [exact Hls | exact Hlc |].
  intros i j s c _ _ Hs Hc.
  apply Hdist; eapply nth_error_In; eassumption.
Qed.

Lemma Model_of_generated_instance_witness :
  exists inst w' self w'',
    generate Examples.zips Examples.first_rows Examples.counter
      1 (20, 80)%Z 2 (1000, 4000)%Z (5, 5)%Z 1%float Examples.w0 = (Ok inst, w') /\
    Model_init Examples.sin0 Examples.cos0 Examples.acos0 inst w' = (Ok self, w'').
Proof.
  destruct (generate Examples.zips Examples.first_rows Examples.counter
              1 (20, 80)%Z 2 (1000, 4000)%Z (5, 5)%Z 1%float Examples.w0)
    as [[inst|e] w'] eqn:E; [|vm_compute in E; discriminate E].
  destruct (Model_of_generated_instance Examples.sin0 Examples.cos0 Examples.acos0
              _ _ _ _ _ _ _ _ _ _ _ _ E) as (self & w'' & H).
  - intros s c _ _. unfold haversine_result, cosine_law_result, distance_of_cosine_result.
    destruct (Loc_eq (s_loc s) (c_loc c)); [eexists; reflexivity|].
    eexists. vm_compute. reflexivity.
  - exists inst, w', self, w''. split; [reflexivity | exact H].
Defined.

(** ** main_streamlit.py: the "Optimize" button *)

Module MainStreamlit.

(** What the handler of the button shows: the message it writes, or the
    results of a solution (the map, the cost table and the two frames, whose
    drawing is not modelled). *)
Inductive Page : Type :=
| Written (msg : string)
| Results (solution : Solution).

(** Miles to kilometres: the literal 1.609344. *)
Definition km_per_mile : float := 0x1.9bfdf7e8038a0p+0.

Section Handler.

Variables sin cos acos : float -> float.
Variable backend : Model -> option Z -> SolverReply.
Variable usa_zips : list ZipRow.
Variable sample : nat -> nat -> list ZipRow -> list ZipRow.
Variable entropy : nat -> Z.

(** Lines 120-131, with the values of the sidebar as arguments. *)
Definition optimize (n_customers : nat) (demand_range : Z * Z) (n_sites : nat)
    (capacity_range fixed_cost_range : Z * Z) (cost_per_unit_mile : float) : M Page :=
  instance <- generate usa_zips sample entropy n_customers demand_range
                n_sites capacity_range fixed_cost_range
                (cost_per_unit_mile / km_per_mile)%float ;;
  model <- Model_init sin cos acos instance ;;
  r <- solve backend model default_timeout_sec ;;
  if negb (fst (fst r) =? LpStatusOptimal)%Z then ret (Written (snd (fst r)))
  else
    solution <- get_solution (snd r) ;;
    ret (Results solution).

End Handler.

End MainStreamlit.

(** *** The handler: which page is shown *)

(** X18: once the instance is generated and its model built, the handler
    shows a message and never extracts a solution unless the status is
    [LpStatusOptimal].  When total demand exceeds total capacity the message
    is the one of the pre-check and the backend is not called; otherwise the
    backend is called once and, for a status other than optimal, the message
    of that status is shown ("Model optimal" for [LpStatusUnbounded] and
    [LpStatusUndefined]); for the optimal status the page is the result of
    [get_solution] on the solved model. *)
Theorem optimize_page
    (sin cos acos : float -> float) (backend : Model -> option Z -> SolverReply)
    (usa_zips : list ZipRow) (sample : nat -> nat -> list ZipRow -> list ZipRow)
    (entropy : nat -> Z)
    (nc : nat) (demand_range : Z * Z) (ns : nat)
    (capacity_range fixed_cost_range : Z * Z) (cost_per_unit_mile : float)
    (w w1 w2 : World) (inst : Instance) (model : Model) :
  generate usa_zips sample entropy nc demand_range ns capacity_range
    fixed_cost_range (cost_per_unit_mile / MainStreamlit.km_per_mile)%float w
    = (Ok inst, w1) ->
  Model_init sin cos acos inst w1 = (Ok model, w2) ->
  let page := MainStreamlit.optimize sin cos acos backend usa_zips sample entropy
                nc demand_range ns capacity_range fixed_cost_range
                cost_per_unit_mile w in
  ((total_capacity model < total_demand model)%Z ->
     page = (Ok (MainStreamlit.Written (infeasible_message model)), w2)) /\
  ((total_demand model <= total_capacity model)%Z ->
   reply_status (backend model None) <> LpStatusOptimal ->
     page = (Ok (MainStreamlit.Written (message_of (reply_status (backend model None)))),
             logged w2 (SolverCall None))) /\
  ((total_demand model <= total_capacity model)%Z ->
   reply_status (backend model None) = LpStatusOptimal ->
   exists model',
     solve backend model default_timeout_sec w2 =
       (Ok ((LpStatusOptimal, "Model optimal"), model'), logged w2 (SolverCall None)) /\
     page = (match fst (get_solution model' (logged w2 (SolverCall None))) with
             | Ok solution => Ok (MainStreamlit.Results solution)
             | Raise e => Raise e
             end,
             logged w2 (SolverCall None))).
Proof.
  intros Hgen Hinit page. subst page. unfold MainStreamlit.optimize.
  rewrite (bind_Ok_l _ _ _ _ _ Hgen), (bind_Ok_l _ _ _ _ _ Hinit).
  split; [|split].
  - intros Hlt.
    rewrite (bind_Ok_l _ _ _ _ _ (solve_precheck backend model default_timeout_sec w2 Hlt)).
    reflexivity.
  - intros Hle Hs.
    rewrite (bind_Ok_l _ _ _ _ _ (solve_run backend model default_timeout_sec w2 Hle)).
    simpl. apply Z.eqb_neq in Hs. rewrite Hs. reflexivity.
  - intros Hle Hs. eexists. split.
    + rewrite (solve_run backend model default_timeout_sec w2 Hle), Hs. reflexivity.
    + rewrite (bind_Ok_l _ _ _ _ _ (solve_run backend model default_timeout_sec w2 Hle)).
      simpl. rewrite Hs. simpl. unfold bind.
      match goal with
      | |- context [get_solution ?m ?w0] =>
          pose proof (get_solution_snd m w0) as Hw;
          destruct (get_solution m w0) as [[sol|e] w3]
      end; simpl in Hw; subst w3; reflexivity.
Qed.

(** The generated example with a backend that gives up: the page says
    "Model optimal" and shows no results. *)
Lemma optimize_page_witness :
  fst (MainStreamlit.optimize Examples.sin0 Examples.cos0 Examples.acos0
         (fun _ _ => {| reply_status := LpStatusUndefined;
                        reply_y := fun _ => None; reply_x := fun _ _ => None |})
         Examples.zips Examples.first_rows Examples.counter
         1 (20, 80)%Z 2 (1000, 4000)%Z (5, 5)%Z 1%float Examples.w0)
    = Ok (MainStreamlit.Written "Model optimal").
Proof.
  destruct (generate Examples.zips Examples.first_rows Examples.counter
              1 (20, 80)%Z 2 (1000, 4000)%Z (5, 5)%Z
              (1 / MainStreamlit.km_per_mile)%float Examples.w0)
    as [[inst|e] w1] eqn:Eg; [|vm_compute in Eg; discriminate Eg].
  destruct (Model_init Examples.sin0 Examples.cos0 Examples.acos0 inst w1)
    as [[model|e] w2] eqn:Em;
    [|vm_compute in Eg; inversion Eg; subst; vm_compute in Em; discriminate Em].
  destruct (optimize_page Examples.sin0 Examples.cos0 Examples.acos0
              (fun _ _ => {| reply_status := LpStatusUndefined;
                             reply_y := fun _ => None; reply_x := fun _ _ => None |})
              Examples.zips Examples.first_rows Examples.counter
              1 (20, 80)%Z 2 (1000, 4000)%Z (5, 5)%Z 1%float
              Examples.w0 w1 w2 inst model Eg Em) as (_ & H & _).
  rewrite H; [reflexivity | | discriminate].
  vm_compute in Eg. inversion Eg; subst. vm_compute in Em. inversion Em; subst.
  vm_compute. discriminate.
Defined.

(** *** Loc.haversine_distance: the tolerance band and the returned number *)

(** X19: a cosine-law value strictly between -1.01 and 1.01 never fails the
    domain test: after the clamp it is neither below -1 nor above 1, and the
    call goes on to [acos] of the clamped value.  The clamp is idempotent. *)
Theorem clamp_domain_safety
    (acos : float -> float) (self other : Loc) (v : float) (w : World) :
  (- c1_01 <? v)%float = true -> (v <? c1_01)%float = true ->
  (clamp v <? -1)%float = false /\ (1 <? clamp v)%float = false /\
  clamp (clamp v) = clamp v /\
  distance_of_cosine acos self other v w =
    (r <- math_acos acos (clamp v) ;; ret (6378 * r)%float) w.
Proof.
  intros Hlo Hhi.
  assert (H : (clamp v <? -1)%float = false /\ (1 <? clamp v)%float = false /\
              clamp (clamp v) = clamp v).
  { destruct (1 <? v)%float eqn:E1; [|destruct (v <? -1)%float eqn:E2].
    - assert (E : clamp v = 1%float) by (unfold clamp; rewrite E1, Hhi; reflexivity).
      rewrite E. repeat split.
    - assert (E : clamp v = (-1)%float)
        by (unfold clamp; rewrite E1, Hlo, E2; reflexivity).
      rewrite E. repeat split.
    - assert (E : clamp v = v)
        by (unfold clamp; rewrite E1, E2, andb_false_r; reflexivity).
      rewrite !E. repeat split; assumption. }
  destruct H as (H1 & H2 & H3). repeat split; try assumption.
  unfold distance_of_cosine, out_of_domain. rewrite H1, H2. reflexivity.
Qed.

Lemma clamp_domain_safety_witness :
  distance_of_cosine Examples.acos0 Examples.P Examples.P'
    0x1.0000000000001p+0%float Examples.w0 =
  (Ok 0%float, {| trace := [LibmCall Facos 1%float]; next_oid := 4; rng := 0 |}).
Proof.
  destruct (clamp_domain_safety Examples.acos0 Examples.P Examples.P'
              0x1.0000000000001p+0%float Examples.w0) as (_ & _ & _ & H);
    [reflexivity | reflexivity |].
  rewrite H. reflexivity.
Defined.

Lemma math_1_Ok name f x w r w' :
  math_1 name f x w = (Ok r, w') -> r = f x /\ w' = logged w (LibmCall name x).
Proof.
  rewrite math_1_run. intros H. inversion H as [[Hr Hw]].
  destruct (checked_cases f x) as [E|E]; rewrite E in Hr; [|discriminate Hr].
  inversion Hr. split; reflexivity.
Qed.

(** X20: when the call returns a number for two distinct objects, it made
    exactly six calls of the math library, in the order sin, sin, cos, cos,
    cos, acos, and the number is 6378 times the [acos] of the clamped value
    [v = sin(a)*sin(b) + cos(a)*cos(b)*cos(db - da)] computed from what the
    library returned; that clamped value passed the domain test. *)
Theorem haversine_distance_returned
    (sin cos acos : float -> float) (self other : Loc) (w w' : World) (d : float) :
  Loc_eq self other = false ->
  haversine_distance sin cos acos self other w = (Ok d, w') ->
  let la := (lat self * pi / 180)%float in
  let lb := (lat other * pi / 180)%float in
  let dl := (lon other * pi / 180 - lon self * pi / 180)%float in
  let v := (sin la * sin lb + cos la * cos lb * cos dl)%float in
  d = (6378 * acos (clamp v))%float /\
  out_of_domain (clamp v) = false /\
  trace w' = (trace w ++ [LibmCall Fsin la; LibmCall Fsin lb; LibmCall Fcos la;
                          LibmCall Fcos lb; LibmCall Fcos dl;
                          LibmCall Facos (clamp v)])%list /\
  next_oid w' = next_oid w /\ rng w' = rng w.
Proof.
  intros Hne H. cbv zeta. unfold haversine_distance in H. rewrite Hne in H.
  inv_bind H as v w1 Hv. unfold cosine_law, math_sin, math_cos in Hv.
  inv_bind Hv as s1 wa H1. inv_bind Hv as s2 wb H2. inv_bind Hv as c1 wc H3.
  inv_bind Hv as c2 wd H4. inv_bind Hv as c3 we H5.
  apply ret_Ok in Hv. destruct Hv as [<- <-].
  apply math_1_Ok in H1, H2, H3, H4, H5.
  destruct H1 as [-> ->], H2 as [-> ->], H3 as [-> ->], H4 as [-> ->], H5 as [-> ->].
  unfold distance_of_cosine in H.
  destruct (out_of_domain _) eqn:Eo; [discriminate H|].
  inv_bind H as r wf Hr. apply ret_Ok in H. destruct H as [<- <-].
  unfold math_acos in Hr. apply math_1_Ok in Hr. destruct Hr as [-> ->].
  repeat split; try reflexivity.
  simpl. rewrite <- !app_assoc. reflexivity.
Qed.

Lemma haversine_distance_returned_witness :
  exists w',
    haversine_distance Examples.sin1 Examples.cos1 Examples.acos1
      Examples.Q Examples.Q' Examples.w0 = (Ok 0x1.8ea0000000000p-14%float, w') /\
    List.length (trace w') = 6%nat.
Proof.
  eexists. split; [vm_compute; reflexivity|].
  edestruct (haversine_distance_returned Examples.sin1 Examples.cos1 Examples.acos1
               Examples.Q Examples.Q' Examples.w0) as (_ & _ & Ht & _);
    [reflexivity | vm_compute; reflexivity |].
  rewrite Ht. reflexivity.
Defined.

(** *** Model.__init__: the two totals *)

(** X21: for an instance whose demands and capacities are non-negative with
    sums below 2^63, the totals the model keeps, and compares in the
    pre-check of [solve], are the exact sums of the two columns. *)
Theorem Model_init_totals
    (sin cos acos : float -> float) (instance : Instance) (w w' : World)
    (self : Model) :
  Model_init sin cos acos instance w = (Ok self, w') ->
  Forall (fun c => 0 <= demand c)%Z (customers instance) ->
  Forall (fun s => 0 <= capacity s)%Z (sites instance) ->
  (fold_right Z.add 0 (map demand (customers instance)) < 2 ^ 63)%Z ->
  (fold_right Z.add 0 (map capacity (sites instance)) < 2 ^ 63)%Z ->
  total_demand self = fold_right Z.add 0%Z (map demand (customers instance)) /\
  total_capacity self = fold_right Z.add 0%Z (map capacity (sites instance)).
Proof.
  intros H Hd Hc Hsd Hsc.
  destruct (Model_init_Ok _ _ _ _ _ _ _ H) as (_ & -> & -> & _).
  unfold int64_sum. split.
  - rewrite int64_sum_from; [lia | lia | | lia].
    apply Forall_forall. intros z Hz. apply in_map_iff in Hz.
    destruct Hz as (c & <- & Hin). exact (proj1 (Forall_forall _ _) Hd c Hin).
  - rewrite int64_sum_from; [lia | lia | | lia].
    apply Forall_forall. intros z Hz. apply in_map_iff in Hz.
    destruct Hz as (s & <- & Hin). exact (proj1 (Forall_forall _ _) Hc s Hin).
Qed.

Lemma Model_init_totals_witness :
  total_demand Examples.model_A = 10%Z /\ total_capacity Examples.model_A = 100%Z.
Proof.
  apply (Model_init_totals Examples.sin0 Examples.cos0 Examples.acos0
           Examples.scenario_A Examples.w0 _ Examples.model_A model_A_built).
  - repeat constructor; vm_compute; discriminate.
  - repeat constructor; vm_compute; discriminate.
  - vm_compute; reflexivity.
  - vm_compute; reflexivity.
Defined.
